(** * Tool invocation, resource resolution and widget state of mcp-app

    A shallow embedding of the MCP server template ([PROMPT.md], the Python
    module [<name>_mcp_server.py]) and of the delivery-quick and
    kitchen-sink widgets (TypeScript), with the properties the
    specification states about them.

    Part I holds the definitions, Part II the theorems. *)

From Stdlib Require Import ZArith QArith String Ascii List Lia.
From Stdlib Require Import SpecFloat.
From stdpp Require Import base decidable option strings list gmap fin_maps
  sorting pretty.

Set Warnings "-register-all".
Open Scope Z_scope.

(* ===================================================================== *)
(** * Part I: definitions                                                  *)
(* ===================================================================== *)

(** ** Python values *)

(** JSON-shaped Python values, as they travel in [req.params.arguments]
    and in [structuredContent]. A [dict] keeps insertion order, so it is an
    association list; [float]s only occur as data and are kept as
    rationals. *)
Inductive pyvalue : Type :=
  | PyNone
  | PyBool (b : bool)
  | PyInt (n : Z)
  | PyFloat (q : Q)
  | PyStr (s : string)
  | PyList (l : list pyvalue)
  | PyDict (d : list (string * pyvalue)).

Abbreviation pydict := (list (string * pyvalue)).

(** [d.get(k)] *)
Fixpoint dict_get (k : string) (d : pydict) : option pyvalue :=
  match d with
  | [] => None
  | (k', v) :: d' => if String.eqb k k' then Some v else dict_get k d'
  end.

(** The keys of a dict, in iteration order. *)
Definition dict_keys (d : pydict) : list string := map fst d.

(** Exceptions. The two handler clauses of the dispatcher filter by class:
    [httpx.HTTPError] (a subclass of [Exception]), then [Exception]. What
    derives from [BaseException] only ([asyncio.CancelledError],
    [KeyboardInterrupt], [SystemExit]) matches neither clause. *)
Inductive ExcClass : Type :=
  | HTTPError
  | OtherException
  | BaseExceptionOnly.

Record PyExc : Type := mkExc {
  exc_class : ExcClass;
  exc_str : string          (* str(exc) *)
}.

Definition isinstance_HTTPError (e : PyExc) : bool :=
  match exc_class e with HTTPError => true | _ => false end.

Definition isinstance_Exception (e : PyExc) : bool :=
  match exc_class e with BaseExceptionOnly => false | _ => true end.

(** The outcome of a Python call: a value, or a raised exception. *)
Inductive PyResult (A : Type) : Type :=
  | Return (a : A)
  | Raise (e : PyExc).
Arguments Return {A} a.
Arguments Raise {A} e.

(** ** Data models (STEP 1 and STEP 2 of the template) *)

(** An instance of a pydantic model seen through its fields: Python does
    not enforce the annotation [List[ItemData]] on what the handler
    returns (an instance made by [model_construct], or of another model
    class, passes), and [model_dump] gives back the fields the instance
    has. *)
Record PyModel : Type := mkModel { model_fields : pydict }.

Definition model_dump (m : PyModel) : pyvalue := PyDict (model_fields m).

(** [ItemData(id=.., name=.., description=.., image_url=.., rating=..)] *)
Definition ItemData (id name description image_url : string) (rating : Q)
  : PyModel :=
  mkModel [("id", PyStr id); ("name", PyStr name);
           ("description", PyStr description);
           ("image_url", PyStr image_url); ("rating", PyFloat rating)].

(** The declared fields of [class ItemData] and of [class MyToolOutput];
    every one of them is required (none has a default). *)
Definition ItemData_required : list string :=
  ["id"; "name"; "description"; "image_url"; "rating"].

Definition MyToolOutput_required : list string :=
  ["items"; "total_count"; "metadata"].

(** [@dataclass(frozen=True) class MyWidget] *)
Record MyWidget : Type := mkWidget {
  identifier : string;
  title : string;
  template_uri : string;
  invoking : string;
  invoked : string;
  html : string;
  response_text : string
}.

(** [WIDGETS_BY_ID = {w.identifier: w for w in widgets}]: a later widget
    with the same identifier replaces an earlier one. *)
Definition WIDGETS_BY_ID (widgets : list MyWidget) : gmap string MyWidget :=
  foldl (fun m w => <[identifier w := w]> m) ∅ widgets.

(** ** Input schema (STEP 3) *)

(** [class MyToolInput]: the validated payload. *)
Record MyToolInput : Type := mkInput {
  query : string;
  limit : Z
}.

(** The JSON schema advertised for the tool. *)
Record JsonSchema : Type := mkSchema {
  properties : list string;
  required : list string;
  additionalProperties : bool
}.

Definition TOOL_INPUT_SCHEMA : JsonSchema :=
  mkSchema ["query"; "limit"] ["query"] false.

(** One entry of [ValidationError.errors()]. *)
Record ErrorDetails : Type := mkError {
  err_type : string;
  err_loc : list string;
  err_msg : string;
  err_input : pyvalue
}.

Definition missing_error (field : string) (input : pydict) : ErrorDetails :=
  mkError "missing" [field] "Field required" (PyDict input).

Definition extra_forbidden_error (field : string) (v : pyvalue)
  : ErrorDetails :=
  mkError "extra_forbidden" [field] "Extra inputs are not permitted" v.

(** What a type validator of pydantic answers on one value. *)
Inductive Validated (A : Type) : Type :=
  | Valid (a : A)
  | Invalid (etype msg : string).
Arguments Valid {A} a.
Arguments Invalid {A} etype msg.

(** ** The runtime the module relies on

    The handler body, the clock, pydantic's per-type validators and
    Python's [repr] are outside the module; the dispatcher is stated over
    any of them. [World] is whatever the handler can read and change. *)
Class Runtime : Type := {
  World : Type;
  (** [await _fetch_from_api(query, limit)] *)
  _fetch_from_api : string -> Z -> World -> PyResult (list PyModel) * World;
  (** [datetime.now().isoformat()] *)
  now_isoformat : World -> string;
  (** pydantic's validators of the annotations [str] and [int] *)
  validate_str : pyvalue -> Validated string;
  validate_int : pyvalue -> Validated Z;
  (** [repr] of the list [exc.errors()], as an f-string renders it *)
  repr_errors : list ErrorDetails -> string
}.

Section Validation.
Context `{Runtime}.

(** One declared field: taken from the input and validated, or its
    default, or the [missing] error. [default = None] is [Field(...)]. *)
Definition validate_field {A : Type} (name : string)
    (validator : pyvalue -> Validated A) (default : option A)
    (input : pydict) : list ErrorDetails + A :=
  match dict_get name input with
  | Some v =>
      match validator v with
      | Valid a => inr a
      | Invalid etype msg => inl [mkError etype [name] msg v]
      end
  | None =>
      match default with
      | Some a => inr a
      | None => inl [missing_error name input]
      end
  end.

(** [extra="forbid"]: every key that is no declared field is an error. *)
Definition extra_errors (declared : list string) (input : pydict)
  : list ErrorDetails :=
  flat_map (fun kv : string * pyvalue =>
              if bool_decide (fst kv ∈ declared) then []
              else [extra_forbidden_error (fst kv) (snd kv)]) input.

Definition errors_of {A : Type} (r : list ErrorDetails + A)
  : list ErrorDetails :=
  match r with inl errs => errs | inr _ => [] end.

(** [MyToolInput.model_validate(arguments)]: the payload, or the errors
    of the raised [ValidationError], fields in declaration order and the
    extra keys after them. *)
Definition model_validate (input : pydict)
  : list ErrorDetails + MyToolInput :=
  let q := validate_field "query" validate_str None input in
  let l := validate_field "limit" validate_int (Some 10) input in
  let extras := extra_errors (properties TOOL_INPUT_SCHEMA) input in
  match q, l, extras with
  | inr q', inr l', [] => inr (mkInput q' l')
  | _, _, _ => inl (errors_of q ++ errors_of l ++ extras)
  end.
End Validation.

(** ** Metadata helpers (STEP 5) *)

Definition _tool_meta (widget : MyWidget) : pydict :=
  [("openai/outputTemplate", PyStr (template_uri widget));
   ("openai/toolInvocation/invoking", PyStr (invoking widget));
   ("openai/toolInvocation/invoked", PyStr (invoked widget));
   ("openai/widgetAccessible", PyBool true)].

Definition _tool_invocation_meta (widget : MyWidget) : pydict :=
  [("openai/toolInvocation/invoking", PyStr (invoking widget));
   ("openai/toolInvocation/invoked", PyStr (invoked widget))].

(** ** Protocol handlers (STEP 7) *)

(** [types.Tool], with the fields [_list_tools] fills in. *)
Record Tool : Type := mkTool {
  tool_name : string;
  tool_title : string;
  tool_description : string;
  inputSchema : JsonSchema;
  tool_meta : pydict
}.

Definition _list_tools (widgets : list MyWidget) : list Tool :=
  map (fun widget =>
         mkTool (identifier widget) (title widget) (title widget)
                TOOL_INPUT_SCHEMA (_tool_meta widget)) widgets.

(** [types.CallToolResult]: the texts of its [TextContent] blocks, and the
    optional fields with the defaults of the class. *)
Record CallToolResult : Type := mkResult {
  content : list string;
  structuredContent : option pyvalue;
  _meta : option pydict;
  isError : bool
}.

(** [CallToolResult(content=[TextContent(type="text", text=t)], isError=True)] *)
Definition error_result (text : string) : CallToolResult :=
  mkResult [text] None None true.

(** [types.CallToolRequest]: [req.params.name], [req.params.arguments]. *)
Record CallToolRequest : Type := mkRequest {
  name : string;
  arguments : option pydict
}.

Section Dispatcher.
Context `{Runtime}.
Variable widgets : list MyWidget.

(** The dict [structured_data] built in the [try] block. *)
Definition structured_data (items : list PyModel) (payload : MyToolInput)
    (timestamp : string) : pyvalue :=
  PyDict [("items", PyList (map model_dump items));
          ("total_count", PyInt (Z.of_nat (length items)));
          ("metadata", PyDict [("query", PyStr (query payload));
                               ("timestamp", PyStr timestamp)])].

(** [f"Found {len(items)} items for '{payload.query}'"] *)
Definition summary_text (items : list PyModel) (payload : MyToolInput)
  : string :=
  "Found " +:+ pretty (length items) +:+ " items for '" +:+ query payload
    +:+ "'".

(** [async def _call_tool_request(req)]: the result handed to the caller,
    or the exception that leaves the function, and the world after it. *)
Definition _call_tool_request (req : CallToolRequest) (w : World)
  : PyResult CallToolResult * World :=
  match WIDGETS_BY_ID widgets !! name req with
  | None => (Return (error_result ("Unknown tool: " +:+ name req)), w)
  | Some widget =>
      let arguments := default [] (arguments req) in
      match model_validate arguments with
      | inl errs =>
          (Return (error_result
                     ("Validation error: " +:+ repr_errors errs)), w)
      | inr payload =>
          match _fetch_from_api (query payload) (limit payload) w with
          | (Return items, w') =>
              let structured :=
                structured_data items payload (now_isoformat w') in
              let meta := _tool_invocation_meta widget in
              (Return (mkResult [summary_text items payload]
                                (Some structured) (Some meta) false), w')
          | (Raise exc, w') =>
              if isinstance_HTTPError exc then
                (Return (error_result ("API error: " +:+ exc_str exc)), w')
              else if isinstance_Exception exc then
                (Return (error_result ("Error: " +:+ exc_str exc)), w')
              else (Raise exc, w')
          end
      end
  end.
End Dispatcher.

(** ** A runtime to run the dispatcher on *)

(** The mock body of [_fetch_from_api] (option B of the template): items
    0 .. min(limit, 5) - 1; [4.0 + (i % 10) / 10] as a rational. *)
Definition mock_item (q : string) (i : nat) : PyModel :=
  ItemData ("item-" +:+ pretty i)
           ("Item " +:+ pretty i +:+ ": " +:+ q)
           ("Description for item " +:+ pretty i)
           ("https://picsum.photos/seed/" +:+ pretty i +:+ "/200")
           (4 + inject_Z (Z.of_nat i mod 10) / 10)%Q.

Definition mock_fetch (q : string) (lim : Z) : list PyModel :=
  map (mock_item q) (seq 0 (Z.to_nat (Z.min lim 5))).

(** Validators that accept a value of exactly the annotated type. *)
Definition exact_str (v : pyvalue) : Validated string :=
  match v with
  | PyStr s => Valid s
  | _ => Invalid "string_type" "Input should be a valid string"
  end.

Definition exact_int (v : pyvalue) : Validated Z :=
  match v with
  | PyInt n => Valid n
  | _ => Invalid "int_type" "Input should be a valid integer"
  end.

(** A rendering of the error list that keeps type and location. *)
Definition show_errors (errs : list ErrorDetails) : string :=
  String.concat "; "
    (map (fun e => err_type e +:+ " at " +:+ String.concat "." (err_loc e))
         errs).

(** The world of a test: a fixed clock and the log of handler calls. *)
Record TestWorld : Type := mkWorld {
  clock : string;
  handler_calls : list (string * Z)
}.

Definition log_call (q : string) (lim : Z) (w : TestWorld) : TestWorld :=
  mkWorld (clock w) (handler_calls w ++ [(q, lim)]).

(** The mock handler, logging each call. *)
Definition mock_runtime : Runtime := {|
  World := TestWorld;
  _fetch_from_api := fun q lim w => (Return (mock_fetch q lim), log_call q lim w);
  now_isoformat := clock;
  validate_str := exact_str;
  validate_int := exact_int;
  repr_errors := show_errors
|}.

(** A handler that raises [exc] whatever it is asked, logging the call. *)
Definition failing_runtime (exc : PyExc) : Runtime := {|
  World := TestWorld;
  _fetch_from_api := fun q lim w => (Raise exc, log_call q lim w);
  now_isoformat := clock;
  validate_str := exact_str;
  validate_int := exact_int;
  repr_errors := show_errors
|}.

(** A handler that returns an [ItemData] built without validation
    ([ItemData.model_construct(id="item-0")]): only [id] is set. *)
Definition partial_item : PyModel := mkModel [("id", PyStr "item-0")].

Definition sloppy_runtime : Runtime := {|
  World := TestWorld;
  _fetch_from_api := fun q lim w => (Return [partial_item], log_call q lim w);
  now_isoformat := clock;
  validate_str := exact_str;
  validate_int := exact_int;
  repr_errors := show_errors
|}.

Definition demo_widget : MyWidget :=
  mkWidget "search-items" "Search items" "ui://widget/search-items.html"
           "Loading..." "Loaded successfully" "<div id='root'></div>"
           "Successfully loaded data".

Definition demo_widgets : list MyWidget := [demo_widget].

Definition world0 : TestWorld := mkWorld "2025-01-01T00:00:00" [].

Definition demo_call (args : pydict) : CallToolRequest :=
  mkRequest "search-items" (Some args).

Definition pizza_args : pydict :=
  [("query", PyStr "pizza"); ("limit", PyInt 2)].

(** Exceptions a handler can end with: a timeout of the HTTP client, the
    cancellation of the task, and two failures that differ in the text
    only. *)
Definition timeout_error : PyExc := mkExc HTTPError "ReadTimeout".

Definition cancelled_error : PyExc :=
  mkExc BaseExceptionOnly "CancelledError".



(** Presence of the declared fields in a dict, the part of the output
    schema that says which fields are required. *)
Definition has_fields (fields : list string) (v : pyvalue) : bool :=
  match v with
  | PyDict d => forallb (fun k => bool_decide (is_Some (dict_get k d))) fields
  | _ => false
  end.

(** A value has the shape of [MyToolOutput]: its three fields, and in
    [items] only records with the five fields of [ItemData]. *)
Definition conforms_MyToolOutput (v : pyvalue) : bool :=
  has_fields MyToolOutput_required v &&
  match v with
  | PyDict d =>
      match dict_get "items" d with
      | Some (PyList l) => forallb (has_fields ItemData_required) l
      | _ => false
      end
  | _ => false
  end.

(** ** Resource resolution: [_load_widget_html] *)

Module Resolver.

(** The files of [ASSETS_DIR]: name to text. *)
Abbreviation directory := (gmap string string).

(** Shell-style matching of a file name, as [Path.glob] does within one
    directory: [*] stands for any run of characters, [?] for one, any
    other character for itself. [Path.glob] reads a bracket as the start
    of a character class and a slash as a path separator; neither is
    part of this function, which is [Path.glob] on the patterns without
    a bracket and without a slash only. Every property of the resolver
    below is stated under [literal component_name], which rules both
    out of the pattern. *)
Fixpoint fnmatch (pat s : string) : bool :=
  match pat with
  | EmptyString => bool_decide (s = EmptyString)
  | String c pat' =>
      if Ascii.eqb c "*" then
        (fix star (s : string) : bool :=
           fnmatch pat' s ||
           match s with
           | EmptyString => false
           | String _ s' => star s'
           end) s
      else
        match s with
        | EmptyString => false
        | String d s' =>
            (Ascii.eqb c "?" || Ascii.eqb c d) && fnmatch pat' s'
        end
  end.

(** [ASSETS_DIR.glob(pattern)]: the matching files, in no given order. *)
Definition glob (dir : directory) (pattern : string)
  : list (string * string) :=
  filter (fun f => fnmatch pattern (fst f) = true) (map_to_list dir).

(** The order [sorted] puts paths of one directory in: that of their
    names, character by character. *)
Definition path_le (f g : string * string) : Prop :=
  String.le (fst f) (fst g).

#[global] Instance path_le_dec f g : Decision (path_le f g).
Proof. unfold path_le. apply _. Defined.

(** A character that stands for itself in a pattern and keeps the path in
    the directory: none of [*], [?], [[] and [/]. *)
Definition literal_char (c : ascii) : bool :=
  negb (Ascii.eqb c "*") && negb (Ascii.eqb c "?") &&
  negb (Ascii.eqb c "[") && negb (Ascii.eqb c "/").

(** A name made of such characters, as the names of the widgets are. *)
Fixpoint literal (s : string) : bool :=
  match s with
  | EmptyString => true
  | String c s' => literal_char c && literal s'
  end.

(** [f] is [name] with a version or hash suffix: [name-<suffix>.html]. *)
Definition versioned (name f : string) : Prop :=
  exists suffix, f = name +:+ "-" +:+ suffix +:+ ".html".

Definition sorted (paths : list (string * string)) : list (string * string) :=
  merge_sort path_le paths.

Definition dquote : string := String "034" EmptyString.

Definition FileNotFoundError (msg : string) : PyExc :=
  mkExc OtherException msg.

Definition not_found_message (ASSETS_DIR component_name : string) : string :=
  "Widget HTML for " +:+ dquote +:+ component_name +:+ dquote
    +:+ " not found in " +:+ ASSETS_DIR +:+ ". "
    +:+ "Run `pnpm run build` in web/ to generate assets.".

(** The body of [_load_widget_html], without its cache
    ([_load_widget_html.__wrapped__]). *)
Definition _load_widget_html__wrapped (ASSETS_DIR : string)
    (dir : directory) (component_name : string) : PyResult string :=
  let html_path := component_name +:+ ".html" in
  match dir !! html_path with
  | Some text => Return text
  | None =>
      let fallback_candidates := sorted (glob dir (component_name +:+ "-*.html")) in
      match last fallback_candidates with
      | Some f => Return (snd f)
      | None =>
          Raise (FileNotFoundError (not_found_message ASSETS_DIR component_name))
      end
  end.

(** The state of [functools.lru_cache(maxsize=None)]: the results kept,
    and the two counters of [cache_info()]. [misses] counts the calls of
    the wrapped function. *)
Record CacheState : Type := mkCache {
  cache : gmap string string;
  hits : nat;
  misses : nat
}.

Definition empty_cache : CacheState := mkCache ∅ 0 0.

(** [_load_widget_html], as decorated: a kept result is returned without
    a call; otherwise the body runs, and its result is kept when it
    returns. An exception leaves the cache as it was. *)
Definition _load_widget_html (ASSETS_DIR : string) (dir : directory)
    (component_name : string) (st : CacheState)
  : PyResult string * CacheState :=
  match cache st !! component_name with
  | Some result => (Return result, mkCache (cache st) (S (hits st)) (misses st))
  | None =>
      match _load_widget_html__wrapped ASSETS_DIR dir component_name with
      | Return result =>
          (Return result,
           mkCache (<[component_name := result]> (cache st))
                   (hits st) (S (misses st)))
      | Raise exc =>
          (Raise exc, mkCache (cache st) (hits st) (S (misses st)))
      end
  end.

(** A run of the process: calls of [_load_widget_html], each on the
    directory as it is at that moment. *)
Definition run_calls (ASSETS_DIR : string)
    (calls : list (directory * string)) (st : CacheState) : CacheState :=
  foldl (fun st c => snd (_load_widget_html ASSETS_DIR (fst c) (snd c) st))
        st calls.

(** The scenario of the specification, and the same without the exact
    file. *)
Definition three_files : directory :=
  <["widget.html" := "<exact/>"]>
    (<["widget-aaa.html" := "<aaa/>"]>
       (<["widget-bbb.html" := "<bbb/>"]> ∅)).

Definition two_files : directory :=
  <["widget-aaa.html" := "<aaa/>"]> (<["widget-bbb.html" := "<bbb/>"]> ∅).

End Resolver.

(** ** Widget state *)

(** JSON-like values of a widget state document. An object is a map from
    keys to values: two documents are equal when they hold the same value
    at every key. A number of such a document is a whole-number literal,
    as in [{a: 1, b: 2}]; the quantities of a cart, which the widget
    computes with, are JS numbers ([Double] below). *)
Inductive jsvalue : Type :=
  | JSNull
  | JSBool (b : bool)
  | JSNumber (n : Z)
  | JSString (s : string)
  | JSArray (l : list jsvalue)
  | JSObject (o : gmap string jsvalue).

Abbreviation jsobject := (gmap string jsvalue).

Module WidgetStateStore.

Section Store.
Context {T : Type}.

(** Modelled from the spec: the widget state store, whose
    implementation (the hook [useWidgetState] of
    [web/src/use-widget-state], and the host behind it) is not among
    the sources. The host holds a document or none; the widget brings
    the default of its type. *)
Record Store : Type := mkStore {
  host_document : option T;
  default_document : T
}.

(** Modelled from the spec: the argument of [write] of the widget state
    store (absent from the sources), a document or an updater function. *)
Inductive WriteArgument : Type :=
  | NewDocument (d : T)
  | Updater (f : T -> T).

(** Modelled from the spec: [read()] of the widget state store (absent
    from the sources) returns whatever the host currently holds,
    absent on first mount. *)
Definition read (s : Store) : option T := host_document s.

(** Modelled from the spec: [write(newDocumentOrUpdater)] of the widget
    state store (absent from the sources): given a document, replace
    wholesale; given an updater function, apply it to the current
    document (or the type's default if absent) and write the result. *)
Definition write (a : WriteArgument) (s : Store) : Store :=
  match a with
  | NewDocument d => mkStore (Some d) (default_document s)
  | Updater f =>
      mkStore (Some (f (default (default_document s) (host_document s))))
              (default_document s)
  end.
End Store.
Arguments Store T : clear implicits.
Arguments WriteArgument T : clear implicits.

(** [prev => ({...prev, [k]: v})]: the object with the keys of [prev],
    and [v] at [k]. *)
Definition spread_with (k : string) (v : jsvalue) (prev : jsobject)
  : jsobject := <[k := v]> prev.

(** The updater of [handleSaveWidgetState] in the kitchen-sink widget:
    [{...prev, note: noteDraft, highlight: highlightDraft, savedAt: now}] *)
Definition handleSaveWidgetState (noteDraft : string)
    (highlightDraft : bool) (now : string) (prev : jsobject) : jsobject :=
  spread_with "savedAt" (JSString now)
    (spread_with "highlight" (JSBool highlightDraft)
       (spread_with "note" (JSString noteDraft) prev)).

(** The documents [{a:1, b:2}] and [{a:1, b:3}]. *)
Definition doc_a1_b2 : jsobject :=
  <["a" := JSNumber 1]> (<["b" := JSNumber 2]> ∅).
Definition doc_a1_b3 : jsobject :=
  <["a" := JSNumber 1]> (<["b" := JSNumber 3]> ∅).

End WidgetStateStore.

(** ** JS numbers *)

Module Double.

(** A JS number is an IEEE 754 binary64 value: [spec_float] of the
    Standard Library's specification of floating-point arithmetic, at
    precision 53 and exponent bound 1024. Its operations round to the
    nearest value, ties to even. *)
Definition prec : Z := 53.
Definition emax : Z := 1024.

(** The values of the type that are numbers: a finite one is in its
    normal form and in range. *)
Definition valid (x : spec_float) : bool := valid_binary prec emax x.

(** The number that a whole-number literal denotes. *)
Definition of_Z (n : Z) : spec_float := binary_normalize prec emax n 0 false.
Arguments of_Z : simpl never.

(** [x + y], [x - y], [x === y] and [x <= y] on numbers. *)
Definition add (x y : spec_float) : spec_float := SFadd prec emax x y.
Definition sub (x y : spec_float) : spec_float := SFsub prec emax x y.
Definition strict_eq (x y : spec_float) : bool := SFeqb x y.
Definition leb (x y : spec_float) : bool := SFleb x y.
Arguments add : simpl never.
Arguments sub : simpl never.
Arguments strict_eq : simpl never.
Arguments leb : simpl never.

(** A number is truthy unless it is [0], [-0] or [NaN]. *)
Definition truthy (x : spec_float) : bool :=
  match x with
  | S754_zero _ | S754_nan => false
  | _ => true
  end.

(** [x || y] on numbers. *)
Definition or_else (x y : spec_float) : spec_float :=
  if truthy x then x else y.

(** [Math.trunc(x)] as an integer, for a finite [x]; 0 for the others. *)
Definition trunc (x : spec_float) : Z :=
  match x with
  | S754_finite s m e => cond_Zopp s (Z.shiftl (Zpos m) e)
  | _ => 0
  end.

(** 2^53: every whole number up to it is a number, 2^53 + 1 is not. *)
Definition MAX_EXACT : Z := 2 ^ 53.

(** The whole numbers from [lo] to [hi]. *)
Definition whole (lo hi : Z) (x : spec_float) : Prop :=
  lo <= trunc x <= hi /\ x = of_Z (trunc x).

(** [p] with [k] zero bits below it. *)
Definition shl (p : positive) (k : nat) : positive := Nat.iter k xO p.
Arguments shl : simpl never.

(** The normal form of a whole number below 2^53: a mantissa of 53
    bits. *)
Definition normal (p : positive) : spec_float :=
  S754_finite false (shl p (53 - Pos.size_nat p))
              (- Z.of_nat (53 - Pos.size_nat p)).

(** 1.5 *)
Definition one_and_half : spec_float :=
  S754_finite false 6755399441055744 (-52).

End Double.

(** ** The delivery-quick widget ([web/src/delivery-quick/index.tsx]) *)

Module DeliveryQuick.

(** [interface CartItem]; [quantity] is a [number]. *)
Record CartItem : Type := mkItem {
  product_id : string;
  quantity : spec_float
}.

Inductive ViewMode : Type := Browse | Cart.

(** [QuickWidgetState & Record<string, unknown>]. A field is [None] when
    the object does not have it: an updater run on [null] returns an
    object with the one field it sets. *)
Record QuickWidgetState : Type := mkState {
  cart : option (list CartItem);
  selectedCategory : option string;
  favorites : option (list string);
  viewMode : option ViewMode;
  other_keys : jsobject
}.

(** [{...prev}], for [prev] a state or [null]. *)
Definition spread (prev : option QuickWidgetState) : QuickWidgetState :=
  default (mkState None None None None ∅) prev.

Definition with_cart (c : list CartItem) (s : QuickWidgetState)
  : QuickWidgetState :=
  mkState (Some c) (selectedCategory s) (favorites s) (viewMode s)
          (other_keys s).

Definition with_favorites (f : list string) (s : QuickWidgetState)
  : QuickWidgetState :=
  mkState (cart s) (selectedCategory s) (Some f) (viewMode s) (other_keys s).

Definition with_selectedCategory (c : option string) (s : QuickWidgetState)
  : QuickWidgetState :=
  mkState (cart s) c (favorites s) (viewMode s) (other_keys s).

Definition with_viewMode (v : ViewMode) (s : QuickWidgetState)
  : QuickWidgetState :=
  mkState (cart s) (selectedCategory s) (favorites s) (Some v)
          (other_keys s).

(** [prev?.cart || []] *)
Definition currentCart (prev : option QuickWidgetState) : list CartItem :=
  default [] (prev ≫= cart).

(** [item.product_id === productId] *)
Definition is_product (productId : string) (item : CartItem) : bool :=
  String.eqb (product_id item) productId.

(** The updater of [handleAddToCart]. *)
Definition handleAddToCart (productId : string)
    (prev : option QuickWidgetState) : option QuickWidgetState :=
  let existingItem := find (is_product productId) (currentCart prev) in
  match existingItem with
  | Some _ =>
      Some (with_cart
              (map (fun item =>
                      if is_product productId item
                      then mkItem (product_id item)
                                  (Double.add (quantity item) (Double.of_Z 1))
                      else item) (currentCart prev))
              (spread prev))
  | None =>
      Some (with_cart (currentCart prev ++ [mkItem productId (Double.of_Z 1)])
                      (spread prev))
  end.

(** The updater of [handleRemoveFromCart]. *)
Definition handleRemoveFromCart (productId : string)
    (prev : option QuickWidgetState) : option QuickWidgetState :=
  let existingItem := find (is_product productId) (currentCart prev) in
  match existingItem with
  | None => prev
  | Some existing =>
      if Double.strict_eq (quantity existing) (Double.of_Z 1) then
        Some (with_cart
                (List.filter (fun item => negb (is_product productId item))
                             (currentCart prev))
                (spread prev))
      else
        Some (with_cart
                (map (fun item =>
                        if is_product productId item
                        then mkItem (product_id item)
                                    (Double.sub (quantity item)
                                                (Double.of_Z 1))
                        else item) (currentCart prev))
                (spread prev))
  end.

(** The updater of [handleRemoveAllFromCart]. *)
Definition handleRemoveAllFromCart (productId : string)
    (prev : option QuickWidgetState) : option QuickWidgetState :=
  Some (with_cart
          (List.filter (fun item => negb (is_product productId item))
                       (currentCart prev))
          (spread prev)).

(** The updater of [handleToggleFavorite]; [favorites] is the list the
    component rendered with. *)
Definition handleToggleFavorite (favorites : list string)
    (productId : string) (prev : option QuickWidgetState)
  : option QuickWidgetState :=
  let newFavorites :=
    if existsb (String.eqb productId) favorites
    then List.filter (fun id => negb (String.eqb id productId)) favorites
    else favorites ++ [productId] in
  Some (with_favorites newFavorites (spread prev)).

(** The updater of [handleCategoryClick]. *)
Definition handleCategoryClick (categoryId : string)
    (prev : option QuickWidgetState) : option QuickWidgetState :=
  Some (with_selectedCategory
          (if bool_decide (prev ≫= selectedCategory = Some categoryId)
           then None else Some categoryId)
          (spread prev)).

(** The updaters of [handleViewCart] and [handleBackToBrowse]. *)
Definition handleViewCart (prev : option QuickWidgetState)
  : option QuickWidgetState := Some (with_viewMode Cart (spread prev)).

Definition handleBackToBrowse (prev : option QuickWidgetState)
  : option QuickWidgetState := Some (with_viewMode Browse (spread prev)).

(** Every write the widget makes to its state. *)
Inductive Operation : Type :=
  | AddToCart (productId : string)
  | RemoveFromCart (productId : string)
  | RemoveAllFromCart (productId : string)
  | ToggleFavorite (favorites : list string) (productId : string)
  | CategoryClick (categoryId : string)
  | ViewCart
  | BackToBrowse.

Definition updater (op : Operation)
  : option QuickWidgetState -> option QuickWidgetState :=
  match op with
  | AddToCart p => handleAddToCart p
  | RemoveFromCart p => handleRemoveFromCart p
  | RemoveAllFromCart p => handleRemoveAllFromCart p
  | ToggleFavorite favs p => handleToggleFavorite favs p
  | CategoryClick c => handleCategoryClick c
  | ViewCart => handleViewCart
  | BackToBrowse => handleBackToBrowse
  end.

(** The default the widget mounts with:
    [{cart: [], favorites: [], viewMode: "browse"}]. *)
Definition default_state : QuickWidgetState :=
  mkState (Some []) None (Some []) (Some Browse) ∅.

(** A cart with one entry per product, whose quantities all meet [P]. *)
Definition cart_with (P : spec_float -> Prop) (c : list CartItem) : Prop :=
  Forall (fun item => P (quantity item)) c /\ NoDup (map product_id c).

(** The invariant of the cart: quantities at least 1, one entry per
    product. *)
Definition cart_ok (c : list CartItem) : Prop :=
  cart_with (fun q => Double.leb (Double.of_Z 1) q = true) c.

(** The carts the widget makes: one entry per product, and quantities
    that are whole numbers from 1 to 2^53. *)
Definition cart_whole (c : list CartItem) : Prop :=
  cart_with (Double.whole 1 Double.MAX_EXACT) c.

(** [getCartQuantity] *)
Definition getCartQuantity (c : list CartItem) (productId : string)
  : spec_float :=
  match find (is_product productId) c with
  | Some item => Double.or_else (quantity item) (Double.of_Z 0)
  | None => Double.of_Z 0
  end.

(** The state after a run of operations, the first of the list first. *)
Definition run (ops : list Operation) (prev : option QuickWidgetState)
  : option QuickWidgetState :=
  foldl (fun s op => updater op s) prev ops.

(** A cart with one entry, of quantity 1.5, and one with an entry of
    quantity 2^53. *)
Definition fractional_cart : option QuickWidgetState :=
  Some (with_cart [mkItem "milk" Double.one_and_half] default_state).

Definition full_cart : option QuickWidgetState :=
  Some (with_cart [mkItem "milk" (Double.of_Z Double.MAX_EXACT)]
                  default_state).

End DeliveryQuick.

(** ** Server set-up (STEP 4) and the resource handlers (STEP 7) *)

Module Server.

(** [str.isspace] on the characters below 256: tab to carriage return,
    the four separators 28 to 31, the space, and the two of Latin-1. *)
Definition isspace (c : ascii) : bool :=
  let n := nat_of_ascii c in
  ((9 <=? n) && (n <=? 13) || (28 <=? n) && (n <=? 32) ||
   (n =? 133) || (n =? 160))%nat.

(** [s.lstrip()], [s.rstrip()] and [s.strip()] *)
Fixpoint lstrip (s : string) : string :=
  match s with
  | EmptyString => EmptyString
  | String c s' => if isspace c then lstrip s' else s
  end.

Fixpoint rstrip (s : string) : string :=
  match s with
  | EmptyString => EmptyString
  | String c s' =>
      match rstrip s' with
      | EmptyString => if isspace c then EmptyString else String c EmptyString
      | r => String c r
      end
  end.

Definition strip (s : string) : string := rstrip (lstrip s).

(** [s.split(",")]: the pieces between the commas, at least one. *)
Fixpoint split_comma (s : string) : list string :=
  match s with
  | EmptyString => [EmptyString]
  | String c s' =>
      if Ascii.eqb c ","
      then EmptyString :: split_comma s'
      else match split_comma s' with
           | piece :: pieces => String c piece :: pieces
           | [] => [String c EmptyString]
           end
  end.

(** The truth value of a string: it is not empty. *)
Definition truthy (s : string) : bool :=
  match s with EmptyString => false | _ => true end.

(** [_split_env_list(value)], for [value] a string or [None]. *)
Definition _split_env_list (value : option string) : list string :=
  match value with
  | None => []
  | Some v =>
      if truthy v
      then map strip (List.filter (fun item => truthy (strip item))
                                  (split_comma v))
      else []
  end.

(** [TransportSecuritySettings]; the two lists are empty when not given. *)
Record TransportSecuritySettings : Type := mkSecurity {
  enable_dns_rebinding_protection : bool;
  allowed_hosts : list string;
  allowed_origins : list string
}.

(** [_transport_security_settings()], on the environment [os.getenv]
    reads. *)
Definition _transport_security_settings (environ : gmap string string)
  : TransportSecuritySettings :=
  let hosts := _split_env_list (environ !! "MCP_ALLOWED_HOSTS") in
  let origins := _split_env_list (environ !! "MCP_ALLOWED_ORIGINS") in
  match hosts, origins with
  | [], [] => mkSecurity false [] []
  | _, _ => mkSecurity true hosts origins
  end.

(** A string of white space only. *)
Fixpoint all_space (s : string) : bool :=
  match s with
  | EmptyString => true
  | String c s' => isspace c && all_space s'
  end.

(** A string of commas and white space only. *)
Fixpoint blank (s : string) : bool :=
  match s with
  | EmptyString => true
  | String c s' => (Ascii.eqb c "," || isspace c) && blank s'
  end.

(** A string without comma. *)
Fixpoint comma_free (s : string) : bool :=
  match s with
  | EmptyString => true
  | String c s' => negb (Ascii.eqb c ",") && comma_free s'
  end.

(** [WIDGETS_BY_URI = {w.template_uri: w for w in widgets}] *)
Definition WIDGETS_BY_URI (widgets : list MyWidget) : gmap string MyWidget :=
  foldl (fun m w => <[template_uri w := w]> m) ∅ widgets.

Definition MIME_TYPE : string := "text/html+skybridge".

(** [types.Resource], with the fields [_list_resources] fills in. *)
Record Resource : Type := mkResource {
  resource_name : string;
  resource_title : string;
  uri : string;
  resource_description : string;
  mimeType : string;
  resource_meta : pydict
}.

Definition _list_resources (widgets : list MyWidget) : list Resource :=
  map (fun widget =>
         mkResource (title widget) (title widget) (template_uri widget)
                    (title widget +:+ " widget markup") MIME_TYPE
                    (_tool_meta widget)) widgets.

(** [types.TextResourceContents] *)
Record TextResourceContents : Type := mkContents {
  contents_uri : string;
  contents_mimeType : string;
  text : string;
  contents_meta : pydict
}.

(** [types.ReadResourceResult] *)
Record ReadResourceResult : Type := mkRead {
  contents : list TextResourceContents;
  read_meta : option pydict
}.

(** [_handle_read_resource(req)], on [str(req.params.uri)]. *)
Definition _handle_read_resource (widgets : list MyWidget)
    (requested : string) : ReadResourceResult :=
  match WIDGETS_BY_URI widgets !! requested with
  | None =>
      mkRead [] (Some [("error",
                        PyStr ("Unknown resource: " +:+ requested))])
  | Some widget =>
      mkRead [mkContents (template_uri widget) MIME_TYPE (html widget)
                         (_tool_meta widget)] None
  end.

(** The last widget of the list with a given key, the one a dict built
    from the list keeps. *)
Definition last_with (key : MyWidget -> string) (k : string)
    (widgets : list MyWidget) : option MyWidget :=
  last (List.filter (fun w => String.eqb (key w) k) widgets).

End Server.

(** A handler run with a log of its calls beside the world it works on. *)
Definition logged (R : Runtime) : Runtime := {|
  World := (@World R * list (string * Z))%type;
  _fetch_from_api := fun q lim w =>
    let '(r, w') := @_fetch_from_api R q lim (fst w) in
    (r, (w', snd w ++ [(q, lim)]));
  now_isoformat := fun w => @now_isoformat R (fst w);
  validate_str := @validate_str R;
  validate_int := @validate_int R;
  repr_errors := @repr_errors R
|}.

(** ** Runs of the resolver on one directory *)

Module ResolverRuns.

(** Every kept result is what the body returns on the directory. *)
Definition coherent (ASSETS_DIR : string) (dir : Resolver.directory)
    (st : Resolver.CacheState) : Prop :=
  forall name text,
    Resolver.cache st !! name = Some text ->
    Resolver._load_widget_html__wrapped ASSETS_DIR dir name = Return text.

(** The calls for a list of names, all on the directory [dir]. *)
Definition calls_on (dir : Resolver.directory) (names : list string)
  : list (Resolver.directory * string) :=
  map (fun n => (dir, n)) names.

End ResolverRuns.

(** ** What the delivery-quick widget computes from its state *)

Module DeliveryQuickView.
Import DeliveryQuick.

(** [cart.reduce((sum, item) => sum + item.quantity, 0)] *)
Definition cartTotalItems (c : list CartItem) : spec_float :=
  fold_left (fun sum item => Double.add sum (quantity item)) c
            (Double.of_Z 0).

(** The units of a cart of whole-number quantities, as an integer. *)
Definition units (c : list CartItem) : Z :=
  foldr (fun item sum => Double.trunc (quantity item) + sum) 0 c.

(** The change the cart operations make to the entries of a product:
    [f] on its quantity, other entries as they are. *)
Definition bump (p : string) (f : spec_float -> spec_float)
    (item : CartItem) : CartItem :=
  if is_product p item then mkItem (product_id item) (f (quantity item))
  else item.

(** [q => q + 1] and [q => q - 1] *)
Definition plus_one (q : spec_float) : spec_float :=
  Double.add q (Double.of_Z 1).
Definition minus_one (q : spec_float) : spec_float :=
  Double.sub q (Double.of_Z 1).

(** A state with two products in the cart. *)
Definition milk_and_eggs : option QuickWidgetState :=
  Some (with_cart [mkItem "milk" (Double.of_Z 2);
                   mkItem "eggs" (Double.of_Z 1)] default_state).

(** [handleRemoveFromCart], pressed [n] times. *)
Definition removeTimes (n : nat) (productId : string)
    (prev : option QuickWidgetState) : option QuickWidgetState :=
  Nat.iter n (handleRemoveFromCart productId) prev.

(** The list [handleToggleFavorite] writes, from the rendered one. *)
Definition newFavorites (favorites : list string) (productId : string)
  : list string :=
  if existsb (String.eqb productId) favorites
  then List.filter (fun id => negb (String.eqb id productId)) favorites
  else favorites ++ [productId].

Section Products.
(** [interface ProductData], through the two fields the widget decides
    by; the others are shown as they are. *)
Context {ProductData : Type}.
Variable id : ProductData -> string.
Variable category_id : ProductData -> string.

(** [selectedCategory ? products.filter(p => p.category_id ===
    selectedCategory) : products]; an empty string counts as none. *)
Definition filteredProducts (selectedCategory : option string)
    (products : list ProductData) : list ProductData :=
  match selectedCategory with
  | Some (String c s) =>
      List.filter (fun p => String.eqb (category_id p) (String c s)) products
  | _ => products
  end.

(** [cartProducts] of the cart view: each cart item with its product,
    without the items whose product is not among [products]. *)
Definition cartProducts (products : list ProductData)
    (c : list CartItem) : list (ProductData * spec_float) :=
  flat_map (fun item =>
              match find (fun p => String.eqb (id p) (product_id item))
                         products with
              | Some product => [(product, quantity item)]
              | None => []
              end) c.
End Products.

End DeliveryQuickView.

(** ** The kitchen-sink widget ([src/unnamed/part_000]) *)

Module KitchenSink.

(** The updater of [logEvent]: the new line first, twelve lines kept.
    [stamp] is the time of day the line starts with. *)
Definition logEvent (stamp text : string) (prev : list string)
  : list string :=
  take 12 ((stamp +:+ " " +:+ text) :: prev).

(** The event log after a run of [logEvent] calls, oldest first, from
    the empty log the component starts with. *)
Definition logAll (entries : list (string * string)) : list string :=
  foldl (fun events e => logEvent (fst e) (snd e) events) [] entries.

End KitchenSink.

(* ===================================================================== *)
(** * Part II: theorems                                                    *)
(* ===================================================================== *)

(** ** Dictionaries and the registry *)

Lemma dict_get_None_not_key (k : string) (d : pydict) :
  dict_get k d = None <-> k ∉ dict_keys d.
Proof.
  induction d as [|[k' v] d IH]; simpl.
  - split; [intros _; apply not_elem_of_nil | done].
  - destruct (String.eqb_spec k k') as [->|Hne].
    + split; [done | intros Hn; exfalso; apply Hn; left].
    + rewrite IH, not_elem_of_cons. tauto.
Qed.

Lemma dict_get_Some_elem (k : string) (v : pyvalue) (d : pydict) :
  dict_get k d = Some v -> (k, v) ∈ d.
Proof.
  induction d as [|[k' v'] d IH]; simpl; [done|].
  destruct (String.eqb_spec k k') as [->|Hne].
  - intros [= ->]. left.
  - intros Hd. right. auto.
Qed.

(** The registry built from the list knows exactly the identifiers of the
    list. *)
Lemma foldl_insert_lookup_None {A} (key : A -> string) (l : list A)
    (m : gmap string A) (k : string) :
  foldl (fun m w => <[key w := w]> m) m l !! k = None <->
  m !! k = None /\ k ∉ map key l.
Proof.
  revert m. induction l as [|a l IH]; intros m; simpl.
  - split; [intros Hm; split; [done | apply not_elem_of_nil] | tauto].
  - rewrite IH, lookup_insert_None, not_elem_of_cons.
    split; [intros [[? ?] ?] | intros [? [? ?]]]; repeat split; auto.
Qed.

Lemma WIDGETS_BY_ID_None (widgets : list MyWidget) (n : string) :
  WIDGETS_BY_ID widgets !! n = None <-> n ∉ map identifier widgets.
Proof.
  unfold WIDGETS_BY_ID. rewrite foldl_insert_lookup_None, lookup_empty.
  tauto.
Qed.

Lemma foldl_insert_lookup_Some {A} (key : A -> string) (l : list A)
    (m : gmap string A) (k : string) (a : A) :
  (forall k' a', m !! k' = Some a' -> key a' = k') ->
  foldl (fun m w => <[key w := w]> m) m l !! k = Some a -> key a = k.
Proof.
  revert m. induction l as [|b l IH]; intros m Hm; simpl; [apply Hm|].
  apply IH. intros k' a'. rewrite lookup_insert_Some.
  intros [[<- <-]|[_ Hk]]; [done | by apply Hm].
Qed.

(** A widget found under a name carries that name. *)
Lemma WIDGETS_BY_ID_identifier (widgets : list MyWidget) (n : string)
    (widget : MyWidget) :
  WIDGETS_BY_ID widgets !! n = Some widget -> identifier widget = n.
Proof.
  apply foldl_insert_lookup_Some. intros k' a'. by rewrite lookup_empty.
Qed.

(** ** Input validation *)

Lemma validate_field_missing {A} (field : string)
    (validator : pyvalue -> Validated A) (input : pydict) :
  dict_get field input = None ->
  validate_field field validator None input = inl [missing_error field input].
Proof. unfold validate_field. by intros ->. Qed.

Lemma extra_errors_elem (declared : list string) (input : pydict)
    (k : string) (v : pyvalue) :
  (k, v) ∈ input -> k ∉ declared ->
  extra_forbidden_error k v ∈ extra_errors declared input.
Proof.
  intros Hin Hk. unfold extra_errors.
  apply list_elem_of_In, in_flat_map. exists (k, v).
  split; [by apply list_elem_of_In|]. simpl.
  rewrite bool_decide_eq_false_2 by done. by left.
Qed.

Section ValidationProperties.
Context `{Runtime}.

(** Whatever [model_validate] rejects, it rejects with at least the
    errors of each part. *)
Lemma model_validate_errors (input : pydict) (e : ErrorDetails) :
  e ∈ errors_of (validate_field "query" validate_str None input) ++
      errors_of (validate_field "limit" validate_int (Some 10) input) ++
      extra_errors (properties TOOL_INPUT_SCHEMA) input ->
  exists errs, model_validate input = inl errs /\ e ∈ errs.
Proof.
  intros He. unfold model_validate.
  destruct (validate_field "query" validate_str None input) as [eq|q];
    destruct (validate_field "limit" validate_int (Some 10) input) as [el|l];
    destruct (extra_errors (properties TOOL_INPUT_SCHEMA) input) as [|x xs];
    simpl in *; eauto.
  by apply elem_of_nil in He.
Qed.

Lemma model_validate_missing (field : string) (input : pydict) :
  field ∈ required TOOL_INPUT_SCHEMA ->
  dict_get field input = None ->
  exists errs, model_validate input = inl errs /\
               missing_error field input ∈ errs.
Proof.
  intros Hreq Hget. apply model_validate_errors.
  simpl in Hreq. apply list_elem_of_singleton in Hreq as ->.
  rewrite validate_field_missing by done. simpl. left.
Qed.

Lemma model_validate_extra (k : string) (v : pyvalue) (input : pydict) :
  (k, v) ∈ input ->
  k ∉ properties TOOL_INPUT_SCHEMA ->
  exists errs, model_validate input = inl errs /\
               extra_forbidden_error k v ∈ errs.
Proof.
  intros Hin Hk. apply model_validate_errors.
  rewrite !elem_of_app. right; right. by apply extra_errors_elem.
Qed.
End ValidationProperties.

(** ** The dispatcher *)

Section DispatcherProperties.
Context `{Runtime}.
Variable widgets : list MyWidget.

(** C1. A call of a registered tool whose arguments omit a required
    field [F] of the input schema returns an error result whose text is
    the validation error over a list of violations that holds the
    [missing] entry located at [F]; a call whose arguments hold a key the
    schema does not declare is rejected the same way, with the
    [extra_forbidden] entry located at that key. In both cases the world
    is the one before the call, for any handler: the handler did not
    run. *)
Theorem invalid_arguments_rejected (req : CallToolRequest) (w : World) :
  name req ∈ map identifier widgets ->
  let args := default [] (arguments req) in
  (forall F, F ∈ required TOOL_INPUT_SCHEMA -> dict_get F args = None ->
     exists errs,
       missing_error F args ∈ errs /\
       _call_tool_request widgets req w =
         (Return (error_result ("Validation error: " +:+ repr_errors errs)),
          w)) /\
  (forall k v, (k, v) ∈ args -> k ∉ properties TOOL_INPUT_SCHEMA ->
     exists errs,
       extra_forbidden_error k v ∈ errs /\
       _call_tool_request widgets req w =
         (Return (error_result ("Validation error: " +:+ repr_errors errs)),
          w)).
Proof.
  intros Hreg args.
  assert (exists widget, WIDGETS_BY_ID widgets !! name req = Some widget)
    as [widget Hw].
  { destruct (WIDGETS_BY_ID widgets !! name req) eqn:E; [eauto|].
    by apply WIDGETS_BY_ID_None in E. }
  split.
  - intros F HF Hget.
    destruct (model_validate_missing F args HF Hget) as (errs & Hv & He).
    exists errs. split; [done|].
    unfold _call_tool_request. rewrite Hw. fold args. by rewrite Hv.
  - intros k v Hin Hk.
    destruct (model_validate_extra k v args Hin Hk) as (errs & Hv & He).
    exists errs. split; [done|].
    unfold _call_tool_request. rewrite Hw. fold args. by rewrite Hv.
Qed.

(** C2. A call whose tool name is not an identifier of the registry
    returns the error result "Unknown tool: <name>", and the world is
    the one before the call, for any handler: no handler ran. *)
Theorem unknown_tool_failure (req : CallToolRequest) (w : World) :
  name req ∉ map identifier widgets ->
  _call_tool_request widgets req w =
    (Return (error_result ("Unknown tool: " +:+ name req)), w).
Proof.
  intros Hn. apply WIDGETS_BY_ID_None in Hn.
  unfold _call_tool_request. by rewrite Hn.
Qed.
End DispatcherProperties.

Lemma invalid_arguments_rejected_witness :
  let args := [("limit", PyInt 2); ("colour", PyStr "red")] in
  (exists errs,
     missing_error "query" args ∈ errs /\
     @_call_tool_request mock_runtime demo_widgets (demo_call args) world0 =
       (Return (error_result ("Validation error: " +:+ show_errors errs)),
        world0)) /\
  (exists errs,
     extra_forbidden_error "colour" (PyStr "red") ∈ errs /\
     @_call_tool_request mock_runtime demo_widgets (demo_call args) world0 =
       (Return (error_result ("Validation error: " +:+ show_errors errs)),
        world0)).
Proof.
  intros args.
  assert (Hreg : name (demo_call args) ∈ map identifier demo_widgets)
    by (simpl; left).
  destruct (@invalid_arguments_rejected mock_runtime demo_widgets
              (demo_call args) world0 Hreg) as [Hmiss Hextra].
  split.
  - apply (Hmiss "query"); [simpl; left | reflexivity].
  - apply (Hextra "colour" (PyStr "red")).
    + simpl. right. left.
    + simpl. intros Hin. by repeat (apply elem_of_cons in Hin as [Hin|Hin];
        [discriminate Hin|]); apply elem_of_nil in Hin.
Defined.

Lemma unknown_tool_failure_witness :
  @_call_tool_request mock_runtime demo_widgets
     (mkRequest "delete-everything" (Some [("query", PyStr "x")])) world0 =
    (Return (error_result "Unknown tool: delete-everything"), world0).
Proof.
  apply (@unknown_tool_failure mock_runtime demo_widgets). simpl.
  intros Hin. apply elem_of_cons in Hin as [Hin|Hin]; [discriminate Hin|].
  by apply elem_of_nil in Hin.
Defined.


Section DispatcherOutcomes.
Context `{Runtime}.
Variable widgets : list MyWidget.

(** The three ways a call of a registered tool with valid arguments
    ends, by what the handler does. *)
Lemma call_handler_returns req w widget payload items w' :
  WIDGETS_BY_ID widgets !! name req = Some widget ->
  model_validate (default [] (arguments req)) = inr payload ->
  _fetch_from_api (query payload) (limit payload) w = (Return items, w') ->
  _call_tool_request widgets req w =
    (Return (mkResult [summary_text items payload]
               (Some (structured_data items payload (now_isoformat w')))
               (Some (_tool_invocation_meta widget)) false), w').
Proof.
  intros Hw Hv Hf. unfold _call_tool_request. by rewrite Hw, Hv, Hf.
Qed.

Lemma call_handler_raises req w widget payload exc w' :
  WIDGETS_BY_ID widgets !! name req = Some widget ->
  model_validate (default [] (arguments req)) = inr payload ->
  _fetch_from_api (query payload) (limit payload) w = (Raise exc, w') ->
  _call_tool_request widgets req w =
    if isinstance_HTTPError exc then
      (Return (error_result ("API error: " +:+ exc_str exc)), w')
    else if isinstance_Exception exc then
      (Return (error_result ("Error: " +:+ exc_str exc)), w')
    else (Raise exc, w').
Proof.
  intros Hw Hv Hf. unfold _call_tool_request. by rewrite Hw, Hv, Hf.
Qed.

(** Every call goes one of five ways. *)
Lemma call_cases req w :
  (WIDGETS_BY_ID widgets !! name req = None /\
   _call_tool_request widgets req w =
     (Return (error_result ("Unknown tool: " +:+ name req)), w)) \/
  (exists errs,
     model_validate (default [] (arguments req)) = inl errs /\
     _call_tool_request widgets req w =
       (Return (error_result ("Validation error: " +:+ repr_errors errs)),
        w)) \/
  (exists widget payload,
     WIDGETS_BY_ID widgets !! name req = Some widget /\
     model_validate (default [] (arguments req)) = inr payload /\
     ((exists items w',
         _fetch_from_api (query payload) (limit payload) w =
           (Return items, w') /\
         _call_tool_request widgets req w =
           (Return (mkResult [summary_text items payload]
                      (Some (structured_data items payload
                               (now_isoformat w')))
                      (Some (_tool_invocation_meta widget)) false), w')) \/
      (exists exc w',
         _fetch_from_api (query payload) (limit payload) w =
           (Raise exc, w') /\
         _call_tool_request widgets req w =
           if isinstance_HTTPError exc then
             (Return (error_result ("API error: " +:+ exc_str exc)), w')
           else if isinstance_Exception exc then
             (Return (error_result ("Error: " +:+ exc_str exc)), w')
           else (Raise exc, w')))).
Proof.
  destruct (WIDGETS_BY_ID widgets !! name req) as [widget|] eqn:Hw.
  2: { left. split; [done|]. unfold _call_tool_request. by rewrite Hw. }
  right.
  destruct (model_validate (default [] (arguments req))) as [errs|payload]
    eqn:Hv.
  { left. exists errs. split; [done|].
    unfold _call_tool_request. by rewrite Hw, Hv. }
  right. exists widget, payload. do 2 (split; [done|]).
  destruct (_fetch_from_api (query payload) (limit payload) w)
    as [[items|exc] w'] eqn:Hf.
  - left. exists items, w'. split; [done|].
    by apply call_handler_returns.
  - right. exists exc, w'. split; [done|].
    exact (call_handler_raises req w widget payload exc w' Hw Hv Hf).
Qed.

(** Case analysis on how a call ended, from an equation on its outcome. *)
Ltac on_call_cases req w Hcall :=
  let E := fresh "E" in
  destruct (call_cases req w)
    as [[_ E]|[(?errs & _ & E)|(?widget & ?payload & ?Hw & _ &
          [(?items & ?w2 & _ & E)|(?exc0 & ?w2 & _ & E)])]];
  rewrite E in Hcall; clear E.

(** C3, as the code has it. When the handler returns, the dispatcher
    checks nothing: the result is a success whose structured content is
    built from the records exactly as returned. Its three top-level
    fields are always there, and it has the shape of the output model
    exactly when every record of the handler has the five fields of
    [ItemData]: a record that lacks one reaches the caller. *)
Theorem handler_records_reach_caller req w widget payload items w' :
  WIDGETS_BY_ID widgets !! name req = Some widget ->
  model_validate (default [] (arguments req)) = inr payload ->
  _fetch_from_api (query payload) (limit payload) w = (Return items, w') ->
  let sc := structured_data items payload (now_isoformat w') in
  _call_tool_request widgets req w =
    (Return (mkResult [summary_text items payload] (Some sc)
               (Some (_tool_invocation_meta widget)) false), w') /\
  has_fields MyToolOutput_required sc = true /\
  (exists d, sc = PyDict d /\
             dict_get "items" d = Some (PyList (map model_dump items))) /\
  conforms_MyToolOutput sc =
    forallb (has_fields ItemData_required) (map model_dump items).
Proof.
  intros Hw Hv Hf sc. split; [by apply call_handler_returns|].
  split; [reflexivity|]. split; [|reflexivity].
  eexists. split; reflexivity.
Qed.

(** C4, as the code has it. An exception of the handler that is an
    instance of [Exception] is turned into an error result, with the
    text "API error: " (for [httpx.HTTPError]) or "Error: " before the
    exception's own; an exception of the handler that is an instance of
    [BaseException] only is not caught: the dispatcher raises it, with
    the state the handler left; and whatever exception leaves the
    dispatcher is such an exception of the handler, raised on validated
    arguments of a known tool. *)
Theorem handler_exception_becomes_failure req w widget payload exc w' :
  WIDGETS_BY_ID widgets !! name req = Some widget ->
  model_validate (default [] (arguments req)) = inr payload ->
  _fetch_from_api (query payload) (limit payload) w = (Raise exc, w') ->
  (isinstance_Exception exc = true ->
   _call_tool_request widgets req w =
     (Return (error_result
                ((if isinstance_HTTPError exc then "API error: "
                  else "Error: ") +:+ exc_str exc)), w')) /\
  (isinstance_Exception exc = false ->
   _call_tool_request widgets req w = (Raise exc, w')) /\
  (forall req0 w0 e w1,
     _call_tool_request widgets req0 w0 = (Raise e, w1) ->
     isinstance_Exception e = false /\
     exists widget0 payload0,
       WIDGETS_BY_ID widgets !! name req0 = Some widget0 /\
       model_validate (default [] (arguments req0)) = inr payload0 /\
       _fetch_from_api (query payload0) (limit payload0) w0 = (Raise e, w1)).
Proof.
  intros Hw Hv Hf. split; [|split].
  - intros Hexc.
    rewrite (call_handler_raises _ _ _ _ _ _ Hw Hv Hf), Hexc.
    by destruct (isinstance_HTTPError exc).
  - intros Hexc.
    rewrite (call_handler_raises _ _ _ _ _ _ Hw Hv Hf), Hexc.
    unfold isinstance_HTTPError. unfold isinstance_Exception in Hexc.
    by destruct (exc_class exc).
  - intros req0 w0 e w1 Hcall.
    destruct (call_cases req0 w0)
      as [[_ E]|[(errs & _ & E)|(widget0 & payload0 & Hw0 & Hv0 &
            [(items & w2 & _ & E)|(exc0 & w2 & Hf0 & E)])]];
      rewrite E in Hcall; clear E; try discriminate Hcall.
    destruct (isinstance_HTTPError exc0); [discriminate Hcall|].
    destruct (isinstance_Exception exc0) eqn:Ei; [discriminate Hcall|].
    injection Hcall as <- <-. split; [done|].
    by exists widget0, payload0.
Qed.

(** C5, as the code has it. A successful result carries one text, the
    structured content, and a metadata map that is exactly the two
    status strings of the tool's widget, unchanged; the resource
    identifier is not in it: it is in the metadata of each tool of the
    listing. *)
Theorem success_carries_status_strings req w r w' :
  _call_tool_request widgets req w = (Return r, w') ->
  isError r = false ->
  exists widget text sc,
    WIDGETS_BY_ID widgets !! name req = Some widget /\
    identifier widget = name req /\
    content r = [text] /\
    structuredContent r = Some sc /\
    _meta r = Some [("openai/toolInvocation/invoking",
                     PyStr (invoking widget));
                    ("openai/toolInvocation/invoked",
                     PyStr (invoked widget))] /\
    (exists m, _meta r = Some m /\
               dict_get "openai/outputTemplate" m = None) /\
    (forall w0, w0 ∈ widgets ->
       exists tool,
         tool ∈ _list_tools widgets /\
         tool_name tool = identifier w0 /\
         dict_get "openai/outputTemplate" (tool_meta tool) =
           Some (PyStr (template_uri w0))).
Proof.
  intros Hcall Hok. on_call_cases req w Hcall.
  - injection Hcall as <- _. discriminate Hok.
  - injection Hcall as <- _. discriminate Hok.
  - injection Hcall as <- _. exists widget. do 2 eexists.
    split; [done|]. split; [by apply (WIDGETS_BY_ID_identifier widgets)|].
    simpl. do 3 (split; [reflexivity|]).
    split; [eexists; split; reflexivity|].
    intros w0 Hw0. exists (mkTool (identifier w0) (title w0) (title w0)
                             TOOL_INPUT_SCHEMA (_tool_meta w0)).
    split; [|split; reflexivity].
    unfold _list_tools. apply list_elem_of_In, in_map_iff.
    exists w0. split; [reflexivity | by apply list_elem_of_In].
  - destruct (isinstance_HTTPError exc0);
      [injection Hcall as <- _; discriminate Hok|].
    destruct (isinstance_Exception exc0);
      [injection Hcall as <- _; discriminate Hok | discriminate Hcall].
Qed.

End DispatcherOutcomes.

(** *** The dispatcher on concrete calls *)

Lemma handler_records_reach_caller_witness :
  let sc := structured_data (mock_fetch "pizza" 2) (mkInput "pizza" 2)
              "2025-01-01T00:00:00" in
  @_call_tool_request mock_runtime demo_widgets (demo_call pizza_args) world0 =
    (Return (mkResult ["Found 2 items for 'pizza'"] (Some sc)
               (Some (_tool_invocation_meta demo_widget)) false),
     log_call "pizza" 2 world0) /\
  has_fields MyToolOutput_required sc = true /\
  (exists d, sc = PyDict d /\
             dict_get "items" d =
               Some (PyList (map model_dump (mock_fetch "pizza" 2)))) /\
  conforms_MyToolOutput sc =
    forallb (has_fields ItemData_required)
            (map model_dump (mock_fetch "pizza" 2)).
Proof.
  exact (@handler_records_reach_caller mock_runtime demo_widgets
           (demo_call pizza_args) world0 demo_widget (mkInput "pizza" 2)
           (mock_fetch "pizza" 2) (log_call "pizza" 2 world0)
           eq_refl eq_refl eq_refl).
Defined.

(** C3, the claim as stated fails: a handler that returns a record with
    only [id] gets a success result with that record in it, which does not
    have the shape of the output model. *)
Lemma malformed_record_returned_as_success :
  exists r sc d,
    fst (@_call_tool_request sloppy_runtime demo_widgets
           (demo_call [("query", PyStr "pizza")]) world0) = Return r /\
    isError r = false /\
    structuredContent r = Some sc /\
    conforms_MyToolOutput sc = false /\
    sc = PyDict d /\
    dict_get "items" d = Some (PyList [PyDict [("id", PyStr "item-0")]]).
Proof. do 3 eexists. repeat split; reflexivity. Qed.

Lemma handler_exception_becomes_failure_witness :
  @_call_tool_request (failing_runtime timeout_error) demo_widgets
     (demo_call pizza_args) world0 =
    (Return (error_result "API error: ReadTimeout"),
     log_call "pizza" 2 world0) /\
  (forall req0 w0 e w1,
     @_call_tool_request (failing_runtime timeout_error) demo_widgets req0 w0
       = (Raise e, w1) ->
     isinstance_Exception e = false).
Proof.
  pose proof (@handler_exception_becomes_failure
                (failing_runtime timeout_error)
                demo_widgets (demo_call pizza_args) world0 demo_widget
                (mkInput "pizza" 2) timeout_error (log_call "pizza" 2 world0)
                eq_refl eq_refl eq_refl) as [Hcaught [_ Hleaves]].
  split; [exact (Hcaught eq_refl)|].
  intros req0 w0 e w1 Hcall. exact (proj1 (Hleaves req0 w0 e w1 Hcall)).
Defined.

(** C4, the claim as stated fails: an exception outside [Exception], as
    the cancellation of the task is, passes both handler clauses and
    leaves the dispatcher. *)
Lemma cancellation_leaves_dispatcher :
  fst (@_call_tool_request (failing_runtime cancelled_error) demo_widgets
         (demo_call pizza_args) world0) = Raise cancelled_error /\
  ~ (exists r, fst (@_call_tool_request (failing_runtime cancelled_error)
                      demo_widgets (demo_call pizza_args) world0) = Return r).
Proof. split; [reflexivity | intros [r Hr]; discriminate Hr]. Qed.

Lemma success_carries_status_strings_witness :
  exists widget text sc,
    WIDGETS_BY_ID demo_widgets !! "search-items" = Some widget /\
    identifier widget = "search-items" /\
    content (mkResult ["Found 2 items for 'pizza'"]
               (Some (structured_data (mock_fetch "pizza" 2)
                        (mkInput "pizza" 2) "2025-01-01T00:00:00"))
               (Some (_tool_invocation_meta demo_widget)) false) = [text] /\
    Some (structured_data (mock_fetch "pizza" 2) (mkInput "pizza" 2)
            "2025-01-01T00:00:00") = Some sc /\
    Some (_tool_invocation_meta demo_widget) =
      Some [("openai/toolInvocation/invoking", PyStr (invoking widget));
            ("openai/toolInvocation/invoked", PyStr (invoked widget))] /\
    (exists m, Some (_tool_invocation_meta demo_widget) = Some m /\
               dict_get "openai/outputTemplate" m = None) /\
    (forall w0, w0 ∈ demo_widgets ->
       exists tool,
         tool ∈ _list_tools demo_widgets /\
         tool_name tool = identifier w0 /\
         dict_get "openai/outputTemplate" (tool_meta tool) =
           Some (PyStr (template_uri w0))).
Proof.
  exact (@success_carries_status_strings mock_runtime demo_widgets
           (demo_call pizza_args) world0 _ _ eq_refl eq_refl).
Defined.

(** C5, the claim as stated fails: the metadata of a successful result has
    no entry for the resource identifier, under no key. *)
Lemma success_metadata_lacks_resource_identifier :
  exists r m,
    fst (@_call_tool_request mock_runtime demo_widgets
           (demo_call pizza_args) world0) = Return r /\
    isError r = false /\
    _meta r = Some m /\
    dict_get "openai/outputTemplate" m = None /\
    ~ (exists k, dict_get k m = Some (PyStr (template_uri demo_widget))).
Proof.
  do 2 eexists. do 4 (split; [reflexivity|]).
  intros [k Hk]. simpl in Hk.
  destruct (String.eqb k "openai/toolInvocation/invoking");
    [discriminate Hk|].
  destruct (String.eqb k "openai/toolInvocation/invoked"); discriminate Hk.
Qed.



(** ** Resource resolution *)

Section ResolverProperties.
Import Resolver.

#[local] Instance path_le_refl : Reflexive path_le.
Proof. intros f. unfold path_le. reflexivity. Qed.

#[local] Instance path_le_trans : Transitive path_le.
Proof. intros f g h. unfold path_le. apply transitivity. Qed.

#[local] Instance path_le_total : Total path_le.
Proof. intros f g. unfold path_le. apply (total String.le). Qed.

(** *** Matching *)

Lemma fnmatch_nil (s : string) : fnmatch "" s = true <-> s = "".
Proof. simpl. apply bool_decide_eq_true. Qed.

Lemma fnmatch_star_unfold (pat s : string) :
  fnmatch (String "*" pat) s =
  fnmatch pat s ||
  match s with
  | EmptyString => false
  | String _ s' => fnmatch (String "*" pat) s'
  end.
Proof. destruct s; reflexivity. Qed.

Lemma fnmatch_star (pat s : string) :
  fnmatch (String "*" pat) s = true <->
  exists a b, s = a +:+ b /\ fnmatch pat b = true.
Proof.
  induction s as [|c s IH]; rewrite fnmatch_star_unfold, orb_true_iff.
  - split.
    + intros [Hm|Hf]; [|discriminate Hf]. by exists "", "".
    + intros (a & b & Hab & Hm). left.
      destruct a; [|discriminate Hab]. unfold String.app in Hab.
      simpl in Hab. by subst b.
  - rewrite IH. split.
    + intros [Hm|(a & b & -> & Hm)].
      * by exists "", (String c s).
      * by exists (String c a), b.
    + intros (a & b & Hab & Hm). destruct a as [|c' a].
      * left. unfold String.app in Hab. simpl in Hab. by subst b.
      * right. unfold String.app in Hab. simpl in Hab.
        injection Hab as -> ->. by exists a, b.
Qed.

Lemma fnmatch_literal_prefix (lit pat s : string) :
  literal lit = true ->
  fnmatch (lit +:+ pat) s = true <->
  exists s', s = lit +:+ s' /\ fnmatch pat s' = true.
Proof.
  revert s. induction lit as [|c lit IH]; intros s Hlit.
  - unfold String.app. simpl. split; [intros Hm; by exists s|].
    by intros (s' & -> & Hm).
  - simpl in Hlit. apply andb_true_iff in Hlit as [Hc Hlit].
    unfold literal_char in Hc. rewrite !andb_true_iff in Hc.
    destruct Hc as [[[Hstar Hany] _] _].
    apply negb_true_iff in Hstar, Hany.
    change (String c lit +:+ pat) with (String c (lit +:+ pat)).
    simpl. rewrite Hstar, Hany. simpl. destruct s as [|d s].
    + split; [done|]. intros (s' & Hs & _). discriminate Hs.
    + rewrite andb_true_iff, (IH s Hlit). split.
      * intros [Hcd (s' & -> & Hm)].
        apply Ascii.eqb_eq in Hcd as ->. by exists s'.
      * intros (s' & Hs & Hm).
        change (String c lit +:+ s') with (String c (lit +:+ s')) in Hs.
        injection Hs as -> ->. split; [apply Ascii.eqb_refl | by exists s'].
Qed.

(** For a name without wildcards, the pattern [name-*.html] matches the
    names [name-<suffix>.html], and only them. *)
Lemma fnmatch_versioned (name f : string) :
  literal name = true ->
  fnmatch (name +:+ "-*.html") f = true <-> versioned name f.
Proof.
  intros Hlit. unfold versioned.
  rewrite (fnmatch_literal_prefix name "-*.html" f Hlit).
  split.
  - intros (s1 & -> & Hm).
    apply (fnmatch_literal_prefix "-" "*.html" s1 eq_refl)
      in Hm as (s2 & -> & Hm).
    apply fnmatch_star in Hm as (a & b & -> & Hm).
    apply (fnmatch_literal_prefix ".html" "" b eq_refl)
      in Hm as (s3 & -> & Hm).
    apply fnmatch_nil in Hm as ->. by exists a.
  - intros (suffix & ->). eexists. split; [reflexivity|].
    apply (fnmatch_literal_prefix "-" "*.html" _ eq_refl).
    eexists. split; [reflexivity|].
    apply fnmatch_star. exists suffix, ".html". split; [done|].
    reflexivity.
Qed.

Lemma elem_of_glob (dir : directory) (pattern f text : string) :
  (f, text) ∈ glob dir pattern <->
  dir !! f = Some text /\ fnmatch pattern f = true.
Proof.
  unfold glob. rewrite list_elem_of_filter, elem_of_map_to_list. simpl.
  tauto.
Qed.

(** *** Sorting *)

Lemma last_StronglySorted_greatest (l : list (string * string))
    (x : string * string) :
  StronglySorted path_le l -> last l = Some x ->
  forall y, y ∈ l -> path_le y x.
Proof.
  induction 1 as [|a l Hs IH Ha]; intros Hlast y Hy.
  - by apply elem_of_nil in Hy.
  - destruct l as [|b l].
    + simpl in Hlast. injection Hlast as <-.
      apply list_elem_of_singleton in Hy as ->. reflexivity.
    + change (last (a :: b :: l)) with (last (b :: l)) in Hlast.
      apply elem_of_cons in Hy as [->|Hy]; [|by apply IH].
      rewrite Forall_forall in Ha. apply Ha.
      by apply last_Some_elem_of.
Qed.

Lemma last_sorted_None (l : list (string * string)) :
  last (sorted l) = None <-> l = [].
Proof.
  unfold sorted. rewrite last_None. split.
  - intros Hnil. apply Permutation_nil_r.
    rewrite <- Hnil. symmetry. apply merge_sort_Permutation.
  - intros ->. reflexivity.
Qed.

Lemma last_sorted_greatest (l : list (string * string))
    (x : string * string) :
  last (sorted l) = Some x ->
  x ∈ l /\ forall y, y ∈ l -> path_le y x.
Proof.
  intros Hlast. unfold sorted in *.
  assert (Hp : merge_sort path_le l ≡ₚ l) by apply merge_sort_Permutation.
  split.
  - rewrite <- Hp. by apply last_Some_elem_of.
  - intros y Hy. rewrite <- Hp in Hy.
    eapply last_StronglySorted_greatest; [|done..].
    apply StronglySorted_merge_sort; apply _.
Qed.
End ResolverProperties.

Section ResolverCache.
Import Resolver.
Variable ASSETS_DIR : string.

(** *** The body of the load *)

Lemma load_exact (dir : directory) (name text : string) :
  dir !! (name +:+ ".html") = Some text ->
  _load_widget_html__wrapped ASSETS_DIR dir name = Return text.
Proof. unfold _load_widget_html__wrapped. by intros ->. Qed.

Lemma load_fallback (dir : directory) (name : string) :
  dir !! (name +:+ ".html") = None ->
  glob dir (name +:+ "-*.html") <> [] ->
  exists f text,
    (f, text) ∈ glob dir (name +:+ "-*.html") /\
    _load_widget_html__wrapped ASSETS_DIR dir name = Return text /\
    forall g t, (g, t) ∈ glob dir (name +:+ "-*.html") -> String.le g f.
Proof.
  intros Hmiss Hne. unfold _load_widget_html__wrapped. rewrite Hmiss.
  destruct (last (sorted (glob dir (name +:+ "-*.html"))))
    as [[f text]|] eqn:Hlast.
  - apply last_sorted_greatest in Hlast as [Hin Hmax].
    exists f, text. do 2 (split; [done|]).
    intros g t Hg. apply (Hmax (g, t) Hg).
  - by apply last_sorted_None in Hlast.
Qed.

Lemma load_not_found (dir : directory) (name : string) :
  dir !! (name +:+ ".html") = None ->
  glob dir (name +:+ "-*.html") = [] ->
  _load_widget_html__wrapped ASSETS_DIR dir name =
    Raise (FileNotFoundError (not_found_message ASSETS_DIR name)).
Proof.
  intros Hmiss Hnil. unfold _load_widget_html__wrapped.
  rewrite Hmiss, Hnil. reflexivity.
Qed.

Lemma load_uncached (dir : directory) (name : string) (st : CacheState) :
  cache st !! name = None ->
  fst (_load_widget_html ASSETS_DIR dir name st) =
    _load_widget_html__wrapped ASSETS_DIR dir name.
Proof.
  intros Hc. unfold _load_widget_html. rewrite Hc.
  by destruct (_load_widget_html__wrapped ASSETS_DIR dir name).
Qed.

(** C6, as the code has it. For a component name of literal characters
    (no wildcard, bracket or slash): a name that is in the cache is
    served from it, whatever the files are; for a name that is not, if
    the file [name.html] exists, its text is the result; if it does not
    and some file [name-<suffix>.html] exists, the result is the text of
    the greatest such file in the order of names; if none exists, the
    call raises [FileNotFoundError] with a message that holds the name
    and the assets directory. *)
Theorem resolution_exact_then_greatest_versioned
    (dir : directory) (name : string) (st : CacheState) :
  literal name = true ->
  (forall kept, cache st !! name = Some kept ->
     fst (_load_widget_html ASSETS_DIR dir name st) = Return kept) /\
  (cache st !! name = None ->
   (forall text, dir !! (name +:+ ".html") = Some text ->
      fst (_load_widget_html ASSETS_DIR dir name st) = Return text) /\
   (dir !! (name +:+ ".html") = None ->
    (exists f, versioned name f /\ is_Some (dir !! f)) ->
    exists f text,
      versioned name f /\ dir !! f = Some text /\
      fst (_load_widget_html ASSETS_DIR dir name st) = Return text /\
      forall g, versioned name g -> is_Some (dir !! g) -> String.le g f) /\
   (dir !! (name +:+ ".html") = None ->
    (forall f, versioned name f -> dir !! f = None) ->
    fst (_load_widget_html ASSETS_DIR dir name st) =
      Raise (mkExc OtherException
               ("Widget HTML for " +:+ dquote +:+ name +:+ dquote
                  +:+ " not found in " +:+ ASSETS_DIR +:+ ". "
                  +:+ "Run `pnpm run build` in web/ to generate assets.")))).
Proof.
  intros Hlit. split.
  { intros kept Hc. unfold _load_widget_html. by rewrite Hc. }
  intros Hc. rewrite (load_uncached dir name st Hc).
  split; [|split].
  - intros text. apply load_exact.
  - intros Hmiss (f0 & Hv0 & [t0 Ht0]).
    destruct (load_fallback dir name Hmiss) as (f & text & Hin & Hr & Hmax).
    { intros Hnil.
      assert (Hin : (f0, t0) ∈ glob dir (name +:+ "-*.html")).
      { apply elem_of_glob. split; [done|]. by apply fnmatch_versioned. }
      rewrite Hnil in Hin. by apply elem_of_nil in Hin. }
    apply elem_of_glob in Hin as [Hf Hm].
    exists f, text. split; [by apply fnmatch_versioned|].
    do 2 (split; [done|]). intros g Hg [t Ht].
    apply (Hmax g t). apply elem_of_glob.
    split; [done | by apply fnmatch_versioned].
  - intros Hmiss Hnone. apply load_not_found; [done|].
    destruct (glob dir (name +:+ "-*.html")) as [|[f t] l] eqn:Hg; [done|].
    assert (Hin : (f, t) ∈ glob dir (name +:+ "-*.html"))
      by (rewrite Hg; left).
    apply elem_of_glob in Hin as [Hf Hm].
    apply fnmatch_versioned in Hm; [|done].
    rewrite (Hnone f Hm) in Hf. discriminate Hf.
Qed.

(** *** The cache *)

Lemma cached_entry_stays (dir : directory) (n name text : string)
    (st : CacheState) :
  cache st !! name = Some text ->
  cache (snd (_load_widget_html ASSETS_DIR dir n st)) !! name = Some text.
Proof.
  intros Hc. unfold _load_widget_html.
  destruct (cache st !! n) as [r|] eqn:Hn; [done|].
  destruct (_load_widget_html__wrapped ASSETS_DIR dir n); simpl; [|done].
  rewrite lookup_insert_ne; [done|]. intros ->. congruence.
Qed.

Lemma cached_entry_stays_run (calls : list (directory * string))
    (name text : string) (st : CacheState) :
  cache st !! name = Some text ->
  cache (run_calls ASSETS_DIR calls st) !! name = Some text.
Proof.
  revert st. induction calls as [|[d n] calls IH]; intros st Hc; [done|].
  apply IH. by apply cached_entry_stays.
Qed.

Lemma failed_entry_stays (dir : directory) (n name : string) (exc : PyExc)
    (st : CacheState) :
  _load_widget_html__wrapped ASSETS_DIR dir name = Raise exc ->
  cache st !! name = None ->
  cache (snd (_load_widget_html ASSETS_DIR dir n st)) !! name = None.
Proof.
  intros Hraise Hc. unfold _load_widget_html.
  destruct (cache st !! n) as [r|] eqn:Hn; [done|].
  destruct (_load_widget_html__wrapped ASSETS_DIR dir n) eqn:Hl;
    simpl; [|done].
  rewrite lookup_insert_ne; [done|]. intros ->. congruence.
Qed.

Lemma failed_entry_stays_run (dir : directory) (names : list string)
    (name : string) (exc : PyExc) (st : CacheState) :
  _load_widget_html__wrapped ASSETS_DIR dir name = Raise exc ->
  cache st !! name = None ->
  cache (run_calls ASSETS_DIR (map (fun n => (dir, n)) names) st) !! name
    = None.
Proof.
  intros Hraise. revert st.
  induction names as [|n names IH]; intros st Hc; [done|].
  apply IH. by eapply failed_entry_stays.
Qed.

(** C7, as the code has it. Once a call for a name has returned a text,
    every later call for that name, after any other calls and whatever
    the directory has become, returns that same text as a cache hit:
    [misses], the count of runs of the body, stays as it is. A call that
    raises is not kept: it leaves the cache as it was, with no entry for
    the name, and every later call for the name runs the body again
    ([misses] goes up by one). While the directory is unchanged that
    call raises the same exception; on a directory where the body finds
    a text, it returns that text and keeps it. *)
Theorem resolution_cached_after_success
    (dir : directory) (name : string) (st : CacheState) :
  (forall text st1,
     _load_widget_html ASSETS_DIR dir name st = (Return text, st1) ->
     forall (calls : list (directory * string)) (dir' : directory),
       let st2 := run_calls ASSETS_DIR calls st1 in
       _load_widget_html ASSETS_DIR dir' name st2 =
         (Return text, mkCache (cache st2) (S (hits st2)) (misses st2))) /\
  (forall exc st1,
     _load_widget_html ASSETS_DIR dir name st = (Raise exc, st1) ->
     cache st1 = cache st /\ cache st1 !! name = None /\
     misses st1 = S (misses st) /\
     (forall names : list string,
        let st2 :=
          run_calls ASSETS_DIR (map (fun n => (dir, n)) names) st1 in
        _load_widget_html ASSETS_DIR dir name st2 =
          (Raise exc, mkCache (cache st2) (hits st2) (S (misses st2)))) /\
     (forall (names : list string) (dir' : directory) (text : string),
        _load_widget_html__wrapped ASSETS_DIR dir' name = Return text ->
        let st2 :=
          run_calls ASSETS_DIR (map (fun n => (dir, n)) names) st1 in
        _load_widget_html ASSETS_DIR dir' name st2 =
          (Return text,
           mkCache (<[name := text]> (cache st2)) (hits st2)
                   (S (misses st2))))).
Proof.
  split.
  - intros text st1 Hcall calls dir' st2.
    assert (Hc1 : cache st1 !! name = Some text).
    { unfold _load_widget_html in Hcall.
      destruct (cache st !! name) as [r|] eqn:Hc.
      - injection Hcall as -> <-. done.
      - destruct (_load_widget_html__wrapped ASSETS_DIR dir name);
          [|discriminate Hcall].
        injection Hcall as -> <-. simpl. apply lookup_insert_eq. }
    assert (Hc2 : cache st2 !! name = Some text)
      by by apply cached_entry_stays_run.
    unfold _load_widget_html. by rewrite Hc2.
  - intros exc st1 Hcall.
    unfold _load_widget_html in Hcall.
    destruct (cache st !! name) as [r|] eqn:Hc; [discriminate Hcall|].
    destruct (_load_widget_html__wrapped ASSETS_DIR dir name) as [r|e]
      eqn:Hl; [discriminate Hcall|].
    injection Hcall as -> <-.
    split; [reflexivity|]. split; [exact Hc|]. split; [reflexivity|].
    split.
    + intros names st2.
      assert (Hc2 : cache st2 !! name = None).
      { apply (failed_entry_stays_run dir names name exc); done. }
      unfold _load_widget_html. by rewrite Hc2, Hl.
    + intros names dir' text Hl' st2.
      assert (Hc2 : cache st2 !! name = None).
      { apply (failed_entry_stays_run dir names name exc); done. }
      unfold _load_widget_html. by rewrite Hc2, Hl'.
Qed.
End ResolverCache.

Lemma resolution_exact_then_greatest_versioned_witness :
  exists f text,
    Resolver.versioned "widget" f /\
    Resolver.two_files !! f = Some text /\
    fst (Resolver._load_widget_html "/srv/assets" Resolver.two_files
           "widget" Resolver.empty_cache) = Return text /\
    forall g, Resolver.versioned "widget" g ->
              is_Some (Resolver.two_files !! g) -> String.le g f.
Proof.
  apply (proj1 (proj2 (proj2 (resolution_exact_then_greatest_versioned
                                "/srv/assets" Resolver.two_files "widget"
                                Resolver.empty_cache eq_refl) eq_refl))).
  - reflexivity.
  - exists "widget-aaa.html". split; [by exists "aaa" | by eexists].
Defined.

(** The scenario with the two versioned files only: the greater one is
    served. *)
Lemma two_versions_serve_greatest :
  fst (Resolver._load_widget_html "/srv/assets" Resolver.two_files
         "widget" Resolver.empty_cache) = Return "<bbb/>".
Proof. vm_compute. reflexivity. Qed.

(** A component name that holds a wildcard is a pattern of its own: for
    [w*], with no file [w*.html] and no file [w*-<suffix>.html], the
    fallback matches [widget-aaa.html] and [widget-bbb.html] and serves
    the greater. The properties of the resolver are for names of literal
    characters. *)
Lemma wildcard_name_is_a_pattern :
  Resolver.literal "w*" = false /\
  Resolver.two_files !! "w*.html" = None /\
  (forall f, Resolver.versioned "w*" f -> Resolver.two_files !! f = None) /\
  fst (Resolver._load_widget_html "/srv/assets" Resolver.two_files
         "w*" Resolver.empty_cache) = Return "<bbb/>".
Proof.
  split; [reflexivity|]. split; [vm_compute; reflexivity|].
  split; [|vm_compute; reflexivity].
  intros f [suffix ->].
  unfold Resolver.two_files.
  rewrite lookup_insert_ne by discriminate.
  rewrite lookup_insert_ne by discriminate.
  apply lookup_empty.
Qed.

(** C6, the scenario as stated fails: with [widget.html] among the files,
    resolving [widget] is an exact hit, and the text of [widget.html] is
    served, not that of [widget-bbb.html]. *)
Lemma exact_file_shadows_versions :
  fst (Resolver._load_widget_html "/srv/assets" Resolver.three_files
         "widget" Resolver.empty_cache) = Return "<exact/>" /\
  Resolver.three_files !! "widget-bbb.html" = Some "<bbb/>" /\
  fst (Resolver._load_widget_html "/srv/assets" Resolver.three_files
         "widget" Resolver.empty_cache) <> Return "<bbb/>".
Proof.
  split; [vm_compute; reflexivity|]. split; [vm_compute; reflexivity|].
  vm_compute. intros Heq. discriminate Heq.
Qed.

Lemma resolution_cached_after_success_witness :
  (let st1 := snd (Resolver._load_widget_html "/srv/assets"
                     Resolver.two_files "widget" Resolver.empty_cache) in
   let st2 := Resolver.run_calls "/srv/assets"
                [(Resolver.three_files, "other")] st1 in
   Resolver._load_widget_html "/srv/assets" Resolver.three_files "widget" st2
     = (Return "<bbb/>",
        Resolver.mkCache (Resolver.cache st2) (S (Resolver.hits st2))
                         (Resolver.misses st2))) /\
  (let st1 := snd (Resolver._load_widget_html "/srv/assets"
                     Resolver.two_files "gadget" Resolver.empty_cache) in
   let st2 := Resolver.run_calls "/srv/assets"
                [(Resolver.two_files, "widget");
                 (Resolver.two_files, "gadget")] st1 in
   Resolver._load_widget_html "/srv/assets" Resolver.two_files "gadget" st2
     = (Raise (Resolver.FileNotFoundError
                 (Resolver.not_found_message "/srv/assets" "gadget")),
        Resolver.mkCache (Resolver.cache st2) (Resolver.hits st2)
                         (S (Resolver.misses st2)))).
Proof.
  split.
  - apply (proj1 (resolution_cached_after_success "/srv/assets"
                    Resolver.two_files "widget" Resolver.empty_cache)
             "<bbb/>" _ eq_refl [(Resolver.three_files, "other")]
             Resolver.three_files).
  - apply (proj1 (proj2 (proj2 (proj2
             (proj2 (resolution_cached_after_success "/srv/assets"
                       Resolver.two_files "gadget" Resolver.empty_cache)
                _ _ eq_refl)))) ["widget"; "gadget"]).
Defined.

(** C7, the claim as stated fails: the first call for [widget], on a
    directory without its file, raises; the next call for [widget], once
    the build has written the files, returns the text of
    [widget-bbb.html]. The failure was not kept. *)
Lemma failed_resolution_succeeds_once_built :
  let first := Resolver._load_widget_html "/srv/assets" ∅ "widget"
                 Resolver.empty_cache in
  let second := Resolver._load_widget_html "/srv/assets" Resolver.two_files
                  "widget" (snd first) in
  fst first = Raise (Resolver.FileNotFoundError
                       (Resolver.not_found_message "/srv/assets" "widget")) /\
  Resolver.cache (snd first) !! "widget" = None /\
  fst second = Return "<bbb/>" /\
  ~ (exists exc, fst second = Raise exc).
Proof.
  split; [vm_compute; reflexivity|]. split; [vm_compute; reflexivity|].
  split; [vm_compute; reflexivity|].
  intros [exc Hexc]. vm_compute in Hexc. discriminate Hexc.
Qed.

(** ** The widget state store *)

Section StoreProperties.
Import WidgetStateStore.

Lemma read_write_updater {T} (s : Store T) (f : T -> T) :
  read (write (Updater f) s) =
    Some (f (default (default_document s) (host_document s))).
Proof. reflexivity. Qed.

Lemma read_write_document {T} (s : Store T) (d : T) :
  read (write (NewDocument d) s) = Some d.
Proof. reflexivity. Qed.

Lemma spread_with_lookup (k : string) (v : jsvalue) (prev : jsobject) :
  spread_with k v prev !! k = Some v /\
  forall k', k' <> k -> spread_with k v prev !! k' = prev !! k'.
Proof.
  unfold spread_with. split; [apply lookup_insert_eq|].
  intros k' Hne. by apply lookup_insert_ne.
Qed.

Lemma merge_b3 : spread_with "b" (JSNumber 3) doc_a1_b2 = doc_a1_b3.
Proof.
  unfold spread_with, doc_a1_b2, doc_a1_b3.
  rewrite insert_insert_ne by done. by rewrite insert_insert_eq.
Qed.

(** C8. A write with an updater function stores the function's result
    on the current document, or on the default when the host holds
    none, and the next read returns it. With [{a:1, b:2}] held, the
    updater [prev => ({...prev, b: 3})] gives [{a:1, b:3}]; an updater
    that spreads [prev] and sets a key leaves every other key as it was,
    and so do the updater of [handleSaveWidgetState] (keys other than
    [note], [highlight], [savedAt]) and that of [handleAddToCart]
    (fields other than [cart]). *)
Theorem updater_write_merges :
  (forall (T : Type) (s : Store T) (f : T -> T),
     (forall cur, host_document s = Some cur ->
                  read (write (Updater f) s) = Some (f cur)) /\
     (host_document s = None ->
      read (write (Updater f) s) = Some (f (default_document s)))) /\
  (forall s : Store jsobject,
     host_document s = Some doc_a1_b2 ->
     read (write (Updater (spread_with "b" (JSNumber 3))) s) =
       Some doc_a1_b3) /\
  (forall (s : Store jsobject) (cur : jsobject) (k : string) (v : jsvalue),
     host_document s = Some cur ->
     exists doc,
       read (write (Updater (spread_with k v)) s) = Some doc /\
       doc !! k = Some v /\
       forall k', k' <> k -> doc !! k' = cur !! k') /\
  (forall (s : Store jsobject) (cur : jsobject) note highlight now,
     host_document s = Some cur ->
     exists doc,
       read (write (Updater (handleSaveWidgetState note highlight now)) s)
         = Some doc /\
       doc !! "note" = Some (JSString note) /\
       doc !! "highlight" = Some (JSBool highlight) /\
       doc !! "savedAt" = Some (JSString now) /\
       forall k', k' <> "note" -> k' <> "highlight" -> k' <> "savedAt" ->
                  doc !! k' = cur !! k') /\
  (forall (s : Store (option DeliveryQuick.QuickWidgetState))
          (cur : DeliveryQuick.QuickWidgetState) (productId : string),
     host_document s = Some (Some cur) ->
     exists doc,
       read (write (Updater (DeliveryQuick.handleAddToCart productId)) s)
         = Some (Some doc) /\
       DeliveryQuick.selectedCategory doc =
         DeliveryQuick.selectedCategory cur /\
       DeliveryQuick.favorites doc = DeliveryQuick.favorites cur /\
       DeliveryQuick.viewMode doc = DeliveryQuick.viewMode cur /\
       DeliveryQuick.other_keys doc = DeliveryQuick.other_keys cur).
Proof.
  split; [|split; [|split; [|split]]].
  - intros T s f. split.
    + intros cur Hs. rewrite read_write_updater. by rewrite Hs.
    + intros Hs. rewrite read_write_updater. by rewrite Hs.
  - intros s Hs. rewrite read_write_updater, Hs. simpl.
    by rewrite merge_b3.
  - intros s cur k v Hs. exists (spread_with k v cur).
    rewrite read_write_updater, Hs. split; [done|].
    apply spread_with_lookup.
  - intros s cur note highlight now Hs.
    exists (handleSaveWidgetState note highlight now cur).
    rewrite read_write_updater, Hs. split; [done|].
    unfold handleSaveWidgetState, spread_with.
    split.
    { do 2 (rewrite lookup_insert_ne by done). apply lookup_insert_eq. }
    split.
    { rewrite lookup_insert_ne by done. apply lookup_insert_eq. }
    split; [apply lookup_insert_eq|].
    intros k' H1 H2 H3. by do 3 (rewrite lookup_insert_ne by done).
  - intros s cur productId Hs.
    rewrite read_write_updater, Hs. simpl.
    unfold DeliveryQuick.handleAddToCart.
    destruct (find _ _); eexists; (split; [reflexivity|]); done.
Qed.
End StoreProperties.

Lemma updater_write_merges_witness :
  WidgetStateStore.read
    (WidgetStateStore.write
       (WidgetStateStore.Updater
          (WidgetStateStore.spread_with "b" (JSNumber 3)))
       (WidgetStateStore.mkStore (Some WidgetStateStore.doc_a1_b2) ∅)) =
    Some WidgetStateStore.doc_a1_b3.
Proof.
  apply (proj1 (proj2 updater_write_merges)
           (WidgetStateStore.mkStore (Some WidgetStateStore.doc_a1_b2) ∅)
           eq_refl).
Defined.

(** ** JS numbers: whole numbers up to 2^53 are exact *)

Section DoubleProperties.
Import Double.

Lemma iter_pos_nat {A} (f : A -> A) (p : positive) (x : A) :
  SpecFloat.iter_pos f p x = Nat.iter (Pos.to_nat p) f x.
Proof.
  revert x. induction p as [p IH|p IH|]; intros x.
  - rewrite Pos2Nat.inj_xI. cbn [SpecFloat.iter_pos]. rewrite !IH.
    rewrite <- Nat.iter_add, <- Nat.iter_succ_r. f_equal. lia.
  - rewrite Pos2Nat.inj_xO. cbn [SpecFloat.iter_pos]. rewrite !IH.
    rewrite <- Nat.iter_add. f_equal. lia.
  - reflexivity.
Qed.

Lemma Pos_iter_shl (p d : positive) : Pos.iter xO p d = shl p (Pos.to_nat d).
Proof. unfold shl. by rewrite Pos2Nat.inj_iter. Qed.

Lemma shl_shl (p : positive) (j k : nat) : shl (shl p k) j = shl p (j + k).
Proof. unfold shl. by rewrite Nat.iter_add. Qed.

Lemma digits_size (p : positive) :
  Zpos (digits2_pos p) = Z.of_nat (Pos.size_nat p).
Proof.
  induction p as [p IH|p IH|]; simpl digits2_pos; simpl Pos.size_nat;
    rewrite ?Pos2Z.inj_succ, ?IH; lia.
Qed.

Lemma size_pos (p : positive) : (1 <= Pos.size_nat p)%nat.
Proof. destruct p; simpl; lia. Qed.

Lemma size_shl (p : positive) (k : nat) :
  Pos.size_nat (shl p k) = (k + Pos.size_nat p)%nat.
Proof.
  unfold shl. induction k as [|k IH]; [done|]. simpl. by rewrite IH.
Qed.

Lemma Zpos_shl (p : positive) (k : nat) :
  Zpos (shl p k) = Zpos p * 2 ^ Z.of_nat k.
Proof.
  unfold shl. induction k as [|k IH]; [simpl; lia|].
  rewrite Nat2Z.inj_succ, Z.pow_succ_r by lia.
  change (Nat.iter (S k) xO p) with (xO (Nat.iter k xO p)).
  rewrite Pos2Z.inj_xO, IH. lia.
Qed.

Lemma size_below (p : positive) (n : nat) :
  (Pos.size_nat p <= n)%nat <-> Zpos p < 2 ^ Z.of_nat n.
Proof.
  revert n. induction p as [p IH|p IH|]; intros [|n]; simpl Pos.size_nat.
  - split; [lia|]. simpl. lia.
  - rewrite Nat2Z.inj_succ, Z.pow_succ_r by lia.
    rewrite <- Nat.succ_le_mono, IH. lia.
  - split; [lia|]. simpl. lia.
  - rewrite Nat2Z.inj_succ, Z.pow_succ_r by lia.
    rewrite <- Nat.succ_le_mono, IH. lia.
  - split; [lia|]. simpl. lia.
  - rewrite Nat2Z.inj_succ, Z.pow_succ_r by lia.
    assert (0 < 2 ^ Z.of_nat n) by (apply Z.pow_pos_nonneg; lia). lia.
Qed.

Lemma shr_shl (q : positive) (j : nat) :
  Nat.iter j shr_1
    {| shr_m := Zpos (shl q j); shr_r := false; shr_s := false |} =
    {| shr_m := Zpos q; shr_r := false; shr_s := false |}.
Proof.
  induction j as [|j IH]; [done|].
  rewrite Nat.iter_succ_r. exact IH.
Qed.

Lemma fexp_size (d : nat) (e : Z) :
  (1 <= d)%nat -> -1074 <= Z.of_nat d + e - 53 ->
  fexp prec emax (Z.of_nat d + e) = Z.of_nat d + e - 53.
Proof. intros Hd He. unfold fexp, emin, prec, emax. lia. Qed.

(** A mantissa of 53 bits at an exponent in range is not shifted. *)
Lemma shr_fexp_kept (q : positive) (e : Z) :
  Pos.size_nat q = 53%nat -> -1074 <= e <= 971 ->
  shr_fexp prec emax (Zpos q) e loc_Exact =
    ({| shr_m := Zpos q; shr_r := false; shr_s := false |}, e).
Proof.
  intros Hq He. unfold shr_fexp, Zdigits2. rewrite digits_size, Hq.
  rewrite fexp_size by lia.
  replace (Z.of_nat 53 + e - 53 - e) with 0 by lia. reflexivity.
Qed.

(** When the first shift of the rounding loses no bit and leaves a
    mantissa of 53 bits, that mantissa is the result. *)
Lemma round_from_shr (m q : positive) (e0 e : Z) :
  Pos.size_nat q = 53%nat -> -1074 <= e <= 971 ->
  shr_fexp prec emax (Zpos m) e0 loc_Exact =
    ({| shr_m := Zpos q; shr_r := false; shr_s := false |}, e) ->
  binary_round_aux prec emax false (Zpos m) e0 loc_Exact =
    S754_finite false q e.
Proof.
  intros Hq He Hs. unfold binary_round_aux. rewrite Hs.
  cbn [shr_m loc_of_shr_record round_nearest_even].
  rewrite (shr_fexp_kept q e Hq He). cbn [shr_m].
  replace (e <=? emax - prec) with true; [done|].
  symmetry. apply Z.leb_le. unfold emax, prec. lia.
Qed.

Lemma round_kept (q : positive) (e : Z) :
  Pos.size_nat q = 53%nat -> -1074 <= e <= 971 ->
  binary_round_aux prec emax false (Zpos q) e loc_Exact =
    S754_finite false q e.
Proof.
  intros Hq He. apply round_from_shr; [done..|]. by apply shr_fexp_kept.
Qed.

(** Trailing zero bits below a mantissa of 53 bits are shifted out
    without rounding. *)
Lemma round_shifted (q : positive) (j : nat) (e : Z) :
  Pos.size_nat q = 53%nat -> -1074 <= e + Z.of_nat j <= 971 ->
  binary_round_aux prec emax false (Zpos (shl q j)) e loc_Exact =
    S754_finite false q (e + Z.of_nat j).
Proof.
  intros Hq He. destruct j as [|j].
  { rewrite Z.add_0_r in *. by apply round_kept. }
  apply round_from_shr; [done..|].
  unfold shr_fexp, Zdigits2. rewrite digits_size, size_shl, Hq.
  rewrite fexp_size by lia.
  replace (Z.of_nat (S j + 53) + e - 53 - e)
    with (Zpos (Pos.of_succ_nat j)) by lia.
  unfold shr, shr_record_of_loc.
  rewrite iter_pos_nat, SuccNat2Pos.id_succ, shr_shl.
  f_equal; lia.
Qed.

(** Rounding a whole number below 2^53, given with [k] zero bits below
    it at the exponent [-k], is exact. *)
Lemma round_normal (p : positive) (k : nat) :
  (Pos.size_nat p <= 53)%nat ->
  binary_round prec emax false (shl p k) (- Z.of_nat k) = normal p.
Proof.
  intros Hp. pose proof (size_pos p) as Hp1.
  unfold binary_round. rewrite digits_size, size_shl.
  rewrite fexp_size by lia. unfold shl_align, normal.
  destruct (Z.of_nat (k + Pos.size_nat p) + - Z.of_nat k - 53 - - Z.of_nat k)
    as [|j|j] eqn:E.
  - assert (k = 53 - Pos.size_nat p)%nat as -> by lia.
    apply round_kept; [rewrite size_shl; lia | lia].
  - assert (k = Pos.to_nat j + (53 - Pos.size_nat p))%nat as Hk by lia.
    rewrite Hk at 1. rewrite <- shl_shl.
    rewrite round_shifted; [f_equal; lia | rewrite size_shl; lia | lia].
  - rewrite Pos_iter_shl, shl_shl.
    assert (Pos.to_nat j + k = 53 - Pos.size_nat p)%nat as -> by lia.
    rewrite round_kept; [f_equal; lia | rewrite size_shl; lia | lia].
Qed.

Lemma of_Z_pos (p : positive) :
  (Pos.size_nat p <= 53)%nat -> of_Z (Zpos p) = normal p.
Proof. intros Hp. exact (round_normal p 0 Hp). Qed.

Lemma align_normal (p : positive) (i K : nat) :
  (i <= K)%nat ->
  fst (shl_align (shl p i) (- Z.of_nat i) (- Z.of_nat K)) = shl p K.
Proof.
  intros Hi. unfold shl_align.
  destruct (- Z.of_nat K - - Z.of_nat i) as [|j|j] eqn:E; simpl.
  - f_equal. lia.
  - lia.
  - rewrite Pos_iter_shl, shl_shl. f_equal. lia.
Qed.

Lemma min_exponents (i j : nat) :
  Z.min (- Z.of_nat i) (- Z.of_nat j) = - Z.of_nat (Nat.max i j).
Proof. lia. Qed.

Lemma add_normal (a b : positive) :
  (Pos.size_nat (a + b) <= 53)%nat ->
  add (normal a) (normal b) = normal (a + b).
Proof.
  intros Hs.
  assert (Ha : (Pos.size_nat a <= Pos.size_nat (a + b))%nat)
    by (apply Pos.size_nat_monotone; lia).
  assert (Hb : (Pos.size_nat b <= Pos.size_nat (a + b))%nat)
    by (apply Pos.size_nat_monotone; lia).
  unfold add, normal, SFadd. rewrite min_exponents.
  rewrite !align_normal by lia.
  unfold cond_Zopp.
  set (K := Nat.max (53 - Pos.size_nat a) (53 - Pos.size_nat b)).
  assert (E : Zpos (shl a K) + Zpos (shl b K) = Zpos (shl (a + b) K)).
  { rewrite !Zpos_shl. lia. }
  rewrite E. by apply round_normal.
Qed.

Lemma sub_normal (a b : positive) :
  (b < a)%positive -> (Pos.size_nat a <= 53)%nat ->
  sub (normal a) (normal b) = normal (a - b).
Proof.
  intros Hlt Hs.
  assert (Hb : (Pos.size_nat b <= Pos.size_nat a)%nat)
    by (by apply Pos.size_nat_monotone).
  assert (Hd : (Pos.size_nat (a - b) <= Pos.size_nat a)%nat)
    by (apply Pos.size_nat_monotone; lia).
  unfold sub, normal, SFsub. rewrite min_exponents.
  rewrite !align_normal by lia.
  unfold cond_Zopp.
  set (K := Nat.max (53 - Pos.size_nat a) (53 - Pos.size_nat b)).
  assert (E : Zpos (shl a K) - Zpos (shl b K) = Zpos (shl (a - b) K)).
  { rewrite !Zpos_shl, Pos2Z.inj_sub by done. lia. }
  rewrite E. apply round_normal. lia.
Qed.

(** *** Whole numbers up to 2^53 *)

Lemma below_size (p : positive) :
  Zpos p < MAX_EXACT -> (Pos.size_nat p <= 53)%nat.
Proof. intros Hp. by apply size_below. Qed.

Lemma size_one (p : positive) : p <> 1%positive -> (2 <= Pos.size_nat p)%nat.
Proof.
  intros Hp. destruct p as [p|p|]; simpl; [| |done];
    pose proof (size_pos p); lia.
Qed.

Lemma add_whole (a b : Z) :
  0 <= a -> 0 <= b -> a + b < MAX_EXACT ->
  add (of_Z a) (of_Z b) = of_Z (a + b).
Proof.
  intros Ha Hb Hs. destruct a as [|a|a], b as [|b|b]; try lia.
  - reflexivity.
  - rewrite Z.add_0_l, (of_Z_pos b) by (apply below_size; lia). reflexivity.
  - rewrite Z.add_0_r, (of_Z_pos a) by (apply below_size; lia). reflexivity.
  - change (Zpos a + Zpos b) with (Zpos (a + b)) in *.
    rewrite !of_Z_pos by (apply below_size; lia).
    apply add_normal, below_size, Hs.
Qed.

Lemma sub_whole (a b : Z) :
  0 <= b <= a -> a < MAX_EXACT -> sub (of_Z a) (of_Z b) = of_Z (a - b).
Proof.
  intros Hb Ha. destruct a as [|a|a], b as [|b|b]; try lia.
  - reflexivity.
  - rewrite Z.sub_0_r, (of_Z_pos a) by (apply below_size; lia). reflexivity.
  - rewrite !of_Z_pos by (apply below_size; lia).
    destruct (decide (a = b)) as [->|Hne].
    + rewrite Z.sub_diag. unfold sub, normal, SFsub.
      rewrite min_exponents, !align_normal by lia.
      unfold cond_Zopp. by rewrite Z.sub_diag.
    + assert (Hlt : (b < a)%positive) by lia.
      rewrite <- Pos2Z.inj_sub by done.
      rewrite (of_Z_pos (a - b)) by (apply below_size; lia).
      apply sub_normal; [done | apply below_size; lia].
Qed.

Lemma trunc_normal (p : positive) : trunc (normal p) = Zpos p.
Proof.
  unfold trunc, normal, cond_Zopp.
  rewrite Z.shiftl_opp_r, Z.shiftr_div_pow2 by lia.
  rewrite Zpos_shl. apply Z.div_mul.
  apply Z.pow_nonzero; lia.
Qed.

Lemma trunc_of_Z (n : Z) : 0 <= n <= MAX_EXACT -> trunc (of_Z n) = n.
Proof.
  intros Hn. destruct (decide (n = MAX_EXACT)) as [->|Hne]; [reflexivity|].
  destruct n as [|p|p]; [reflexivity| |lia].
  rewrite of_Z_pos by (apply below_size; lia). apply trunc_normal.
Qed.

Lemma of_Z_inj (a b : Z) :
  0 <= a <= MAX_EXACT -> 0 <= b <= MAX_EXACT -> of_Z a = of_Z b -> a = b.
Proof.
  intros Ha Hb Heq. rewrite <- (trunc_of_Z a Ha), <- (trunc_of_Z b Hb).
  by rewrite Heq.
Qed.

Lemma strict_eq_one (n : Z) :
  0 <= n <= MAX_EXACT -> strict_eq (of_Z n) (of_Z 1) = (n =? 1).
Proof.
  intros Hn. destruct (decide (n = MAX_EXACT)) as [->|Hne]; [reflexivity|].
  destruct n as [|p|p]; [reflexivity| |lia].
  destruct (decide (p = 1%positive)) as [->|Hp]; [reflexivity|].
  rewrite (of_Z_pos p) by (apply below_size; lia).
  pose proof (size_one p Hp) as Hs.
  replace (Zpos p =? 1) with false by (symmetry; apply Z.eqb_neq; lia).
  change (of_Z 1) with (S754_finite false (shl 1 52) (- Z.of_nat 52)).
  unfold strict_eq, normal, SFeqb, SFcompare.
  replace (- Z.of_nat (53 - Pos.size_nat p) ?= - Z.of_nat 52) with Gt;
    [done|].
  symmetry. apply Z.compare_gt_iff. lia.
Qed.

Lemma leb_one (n : Z) :
  0 <= n <= MAX_EXACT -> leb (of_Z 1) (of_Z n) = (1 <=? n).
Proof.
  intros Hn. destruct (decide (n = MAX_EXACT)) as [->|Hne]; [reflexivity|].
  destruct n as [|p|p]; [reflexivity| |lia].
  destruct (decide (p = 1%positive)) as [->|Hp]; [reflexivity|].
  rewrite (of_Z_pos p) by (apply below_size; lia).
  pose proof (size_one p Hp) as Hs.
  replace (1 <=? Zpos p) with true by (symmetry; apply Z.leb_le; lia).
  change (of_Z 1) with (S754_finite false (shl 1 52) (- Z.of_nat 52)).
  unfold leb, normal, SFleb, SFcompare.
  replace (- Z.of_nat 52 ?= - Z.of_nat (53 - Pos.size_nat p)) with Lt;
    [done|].
  symmetry. apply Z.compare_lt_iff. lia.
Qed.

Lemma truthy_of_Z (n : Z) :
  0 <= n <= MAX_EXACT -> truthy (of_Z n) = negb (n =? 0).
Proof.
  intros Hn. destruct (decide (n = MAX_EXACT)) as [->|Hne]; [reflexivity|].
  destruct n as [|p|p]; [reflexivity| |lia].
  by rewrite of_Z_pos by (apply below_size; lia).
Qed.

(** [x + 1] on a whole number: exact below 2^53, where it stops. *)
Lemma incr_whole (n : Z) :
  0 <= n <= MAX_EXACT ->
  add (of_Z n) (of_Z 1) = of_Z (Z.min (n + 1) MAX_EXACT).
Proof.
  intros Hn.
  destruct (decide (n = MAX_EXACT)) as [->|Hne]; [vm_compute; reflexivity|].
  destruct (decide (n = MAX_EXACT - 1)) as [->|Hne'];
    [vm_compute; reflexivity|].
  rewrite Z.min_l by lia. apply add_whole; lia.
Qed.

(** [x - 1] on a whole number from 1 to 2^53 is exact. *)
Lemma decr_whole (n : Z) :
  1 <= n <= MAX_EXACT -> sub (of_Z n) (of_Z 1) = of_Z (n - 1).
Proof.
  intros Hn.
  destruct (decide (n = MAX_EXACT)) as [->|Hne]; [vm_compute; reflexivity|].
  apply sub_whole; lia.
Qed.
End DoubleProperties.

(** ** The cart of the delivery-quick widget *)

Section CartProperties.
Import DeliveryQuick.

Lemma is_product_true (p : string) (item : CartItem) :
  is_product p item = true <-> product_id item = p.
Proof. unfold is_product. apply String.eqb_eq. Qed.

Lemma is_product_false (p : string) (item : CartItem) :
  is_product p item = false <-> product_id item <> p.
Proof. unfold is_product. apply String.eqb_neq. Qed.

(** *** [find] on a cart *)

Lemma find_product_None (p : string) (c : list CartItem) :
  find (is_product p) c = None <-> p ∉ map product_id c.
Proof.
  induction c as [|x c IH]; simpl.
  - split; [intros _; apply not_elem_of_nil | done].
  - rewrite not_elem_of_cons. destruct (is_product p x) eqn:E.
    + apply is_product_true in E. split; [done|]. intros [Hne _].
      by symmetry in E.
    + apply is_product_false in E. rewrite IH. split; [|tauto].
      intros Hn. split; [by intros ->|done].
Qed.

Lemma find_product_Some (p : string) (c : list CartItem) (item : CartItem) :
  find (is_product p) c = Some item -> product_id item = p /\ item ∈ c.
Proof.
  intros Hf. apply find_some in Hf as [Hin Hp].
  split; [by apply is_product_true | by apply list_elem_of_In].
Qed.

Lemma find_product_map (f : CartItem -> CartItem) (p : string)
    (c : list CartItem) :
  (forall item, product_id (f item) = product_id item) ->
  find (is_product p) (map f c) = f <$> find (is_product p) c.
Proof.
  intros Hf. induction c as [|x c IH]; simpl; [done|].
  unfold is_product at 1. rewrite Hf. fold (is_product p x).
  by destruct (is_product p x).
Qed.

Lemma find_product_app (p : string) (c : list CartItem) (x : CartItem) :
  find (is_product p) (c ++ [x]) =
  match find (is_product p) c with
  | Some y => Some y
  | None => if is_product p x then Some x else None
  end.
Proof.
  induction c as [|y c IH]; simpl; [done|].
  by destruct (is_product p y).
Qed.

Lemma find_product_filter_other (p q : string) (c : list CartItem) :
  q <> p ->
  find (is_product q)
       (List.filter (fun item => negb (is_product p item)) c) =
  find (is_product q) c.
Proof.
  intros Hne. induction c as [|x c IH]; simpl; [done|].
  destruct (is_product p x) eqn:Ep; simpl.
  - apply is_product_true in Ep.
    destruct (is_product q x) eqn:Eq; [|done].
    apply is_product_true in Eq. congruence.
  - by rewrite IH.
Qed.

Lemma ids_filter_out (p : string) (c : list CartItem) :
  p ∉ map product_id
        (List.filter (fun item => negb (is_product p item)) c).
Proof.
  induction c as [|x c IH]; simpl; [apply not_elem_of_nil|].
  destruct (is_product p x) eqn:Ep; simpl; [done|].
  apply is_product_false in Ep. rewrite not_elem_of_cons.
  split; [by intros ->|done].
Qed.

Lemma ids_map (f : CartItem -> CartItem) (c : list CartItem) :
  (forall item, product_id (f item) = product_id item) ->
  map product_id (map f c) = map product_id c.
Proof.
  intros Hf. rewrite map_map. apply map_ext. intros a. apply Hf.
Qed.

(** *** The invariant under the list operations *)

Lemma NoDup_ids_filter (g : CartItem -> bool) (c : list CartItem) :
  NoDup (map product_id c) -> NoDup (map product_id (List.filter g c)).
Proof.
  induction c as [|x c IH]; simpl; [done|].
  rewrite NoDup_cons. intros [Hx Hc].
  destruct (g x); simpl; [|auto].
  apply NoDup_cons. split; [|auto].
  intros Hin. apply Hx.
  apply list_elem_of_In, in_map_iff in Hin as (y & Hy & Hin).
  apply filter_In in Hin as [Hin _].
  apply list_elem_of_In, in_map_iff. eauto.
Qed.

Lemma Forall_filter_bool {A} (P : A -> Prop) (g : A -> bool) (l : list A) :
  Forall P l -> Forall P (List.filter g l).
Proof.
  induction 1 as [|x l Hx Hl IH]; simpl; [constructor|].
  destruct (g x); [by constructor | done].
Qed.

Lemma cart_with_filter (P : spec_float -> Prop) (g : CartItem -> bool)
    (c : list CartItem) :
  cart_with P c -> cart_with P (List.filter g c).
Proof.
  intros [Hq Hn]. split;
    [by apply Forall_filter_bool | by apply NoDup_ids_filter].
Qed.

Lemma cart_with_map (P : spec_float -> Prop) (f : CartItem -> CartItem)
    (c : list CartItem) :
  (forall item, product_id (f item) = product_id item) ->
  (forall item, item ∈ c -> P (quantity item) -> P (quantity (f item))) ->
  cart_with P c -> cart_with P (map f c).
Proof.
  intros Hid Hq [Hp Hn]. split; [|by rewrite ids_map].
  rewrite Forall_forall in Hp.
  apply Forall_forall. intros y Hy.
  apply list_elem_of_In, in_map_iff in Hy as (x & <- & Hx).
  apply list_elem_of_In in Hx. by apply Hq, Hp.
Qed.

Lemma cart_with_append (P : spec_float -> Prop) (p : string)
    (q : spec_float) (c : list CartItem) :
  p ∉ map product_id c -> P q -> cart_with P c ->
  cart_with P (c ++ [mkItem p q]).
Proof.
  intros Hp HP [Hq Hn]. split.
  - apply Forall_app. split; [done|]. by repeat constructor.
  - rewrite map_app. simpl. apply NoDup_app. split; [done|]. split.
    + intros x Hx Hx'. apply list_elem_of_singleton in Hx' as ->. done.
    + apply NoDup_singleton.
Qed.

Lemma cart_with_weaken (P Q : spec_float -> Prop) (c : list CartItem) :
  (forall q, P q -> Q q) -> cart_with P c -> cart_with Q c.
Proof.
  intros HPQ [Hq Hn]. split; [|done].
  eapply Forall_impl; [exact Hq|]. intros item. apply HPQ.
Qed.

(** In a cart with one entry per product, the entry found for a product
    is the only one with that product. *)
Lemma cart_entry_unique (p : string) (c : list CartItem)
    (existing item : CartItem) :
  NoDup (map product_id c) ->
  find (is_product p) c = Some existing ->
  item ∈ c -> product_id item = p -> item = existing.
Proof.
  induction c as [|x c IH]; simpl; intros Hn Hf Hin Hp.
  - by apply elem_of_nil in Hin.
  - apply NoDup_cons in Hn as [Hx Hn].
    destruct (is_product p x) eqn:E.
    + injection Hf as <-. apply is_product_true in E.
      apply elem_of_cons in Hin as [->|Hin]; [done|].
      exfalso. apply Hx. rewrite E, <- Hp.
      apply list_elem_of_In, in_map. by apply list_elem_of_In.
    + apply is_product_false in E.
      apply elem_of_cons in Hin as [->|Hin]; [done|]. by apply IH.
Qed.

(** *** The cart an updater leaves *)

Lemma currentCart_with_cart (c : list CartItem) (s : QuickWidgetState) :
  currentCart (Some (with_cart c s)) = c.
Proof. reflexivity. Qed.

Lemma currentCart_spread (prev : option QuickWidgetState) :
  default [] (cart (spread prev)) = currentCart prev.
Proof. by destruct prev. Qed.

Lemma add_existing (p : string) (prev : option QuickWidgetState)
    (existing : CartItem) :
  find (is_product p) (currentCart prev) = Some existing ->
  currentCart (handleAddToCart p prev) =
    map (fun item => if is_product p item
                     then mkItem (product_id item)
                                 (Double.add (quantity item) (Double.of_Z 1))
                     else item) (currentCart prev).
Proof. intros Hf. unfold handleAddToCart. by rewrite Hf. Qed.

Lemma add_new (p : string) (prev : option QuickWidgetState) :
  find (is_product p) (currentCart prev) = None ->
  currentCart (handleAddToCart p prev) =
    currentCart prev ++ [mkItem p (Double.of_Z 1)].
Proof. intros Hf. unfold handleAddToCart. by rewrite Hf. Qed.

Lemma remove_absent (p : string) (prev : option QuickWidgetState) :
  find (is_product p) (currentCart prev) = None ->
  handleRemoveFromCart p prev = prev.
Proof. intros Hf. unfold handleRemoveFromCart. by rewrite Hf. Qed.

Lemma remove_last (p : string) (prev : option QuickWidgetState)
    (existing : CartItem) :
  find (is_product p) (currentCart prev) = Some existing ->
  Double.strict_eq (quantity existing) (Double.of_Z 1) = true ->
  currentCart (handleRemoveFromCart p prev) =
    List.filter (fun item => negb (is_product p item)) (currentCart prev).
Proof.
  intros Hf Hq. unfold handleRemoveFromCart. by rewrite Hf, Hq.
Qed.

Lemma remove_one (p : string) (prev : option QuickWidgetState)
    (existing : CartItem) :
  find (is_product p) (currentCart prev) = Some existing ->
  Double.strict_eq (quantity existing) (Double.of_Z 1) = false ->
  currentCart (handleRemoveFromCart p prev) =
    map (fun item => if is_product p item
                     then mkItem (product_id item)
                                 (Double.sub (quantity item) (Double.of_Z 1))
                     else item) (currentCart prev).
Proof.
  intros Hf Hq. unfold handleRemoveFromCart. by rewrite Hf, Hq.
Qed.

End CartProperties.

Section CartInvariant.
Import DeliveryQuick.

(** *** Whole-number quantities *)

Lemma whole_of_Z (lo hi n : Z) :
  lo <= n <= hi -> 0 <= n <= Double.MAX_EXACT ->
  Double.whole lo hi (Double.of_Z n).
Proof. intros Hn Hr. unfold Double.whole. by rewrite trunc_of_Z. Qed.

Lemma whole_inv (x : spec_float) :
  Double.whole 1 Double.MAX_EXACT x ->
  exists n, 1 <= n <= Double.MAX_EXACT /\ x = Double.of_Z n.
Proof. intros [Hr Hx]. by exists (Double.trunc x). Qed.

Lemma whole_plus_one (x : spec_float) :
  Double.whole 1 Double.MAX_EXACT x ->
  Double.whole 1 Double.MAX_EXACT (Double.add x (Double.of_Z 1)).
Proof.
  intros (n & Hn & ->)%whole_inv. rewrite incr_whole by lia.
  apply whole_of_Z; lia.
Qed.

Lemma whole_minus_one (x : spec_float) :
  Double.whole 1 Double.MAX_EXACT x ->
  Double.strict_eq x (Double.of_Z 1) = false ->
  Double.whole 1 Double.MAX_EXACT (Double.sub x (Double.of_Z 1)).
Proof.
  intros (n & Hn & ->)%whole_inv Hne.
  rewrite strict_eq_one in Hne by lia. apply Z.eqb_neq in Hne.
  rewrite decr_whole by lia. apply whole_of_Z; lia.
Qed.

Lemma whole_at_least_one (x : spec_float) :
  Double.whole 1 Double.MAX_EXACT x ->
  Double.leb (Double.of_Z 1) x = true.
Proof.
  intros (n & Hn & ->)%whole_inv. rewrite leb_one by lia.
  apply Z.leb_le. lia.
Qed.

Lemma whole_truthy (x : spec_float) :
  Double.whole 1 Double.MAX_EXACT x ->
  Double.or_else x (Double.of_Z 0) = x.
Proof.
  intros (n & Hn & ->)%whole_inv. unfold Double.or_else.
  rewrite truthy_of_Z by lia.
  by replace (n =? 0) with false by (symmetry; apply Z.eqb_neq; lia).
Qed.

Lemma cart_whole_ok (c : list CartItem) : cart_whole c -> cart_ok c.
Proof. apply cart_with_weaken, whole_at_least_one. Qed.

(** The quantity the widget shows for a product of a cart of whole
    numbers: that of its entry, 0 when it has none. *)
Lemma quantity_of_whole_cart (c : list CartItem) (p : string) :
  cart_whole c ->
  (exists existing n,
     find (is_product p) c = Some existing /\
     p ∈ map product_id c /\
     1 <= n <= Double.MAX_EXACT /\
     quantity existing = Double.of_Z n /\
     getCartQuantity c p = Double.of_Z n) \/
  (find (is_product p) c = None /\
   (p ∉ map product_id c) /\
   getCartQuantity c p = Double.of_Z 0).
Proof.
  intros [Hq _]. unfold getCartQuantity.
  destruct (find (is_product p) c) as [existing|] eqn:Hf.
  - left. pose proof (find_product_Some p c existing Hf) as [Hid Hin].
    rewrite Forall_forall in Hq. pose proof (Hq existing Hin) as Hw.
    destruct (whole_inv _ Hw) as (n & Hn & Hx).
    exists existing, n. split; [done|]. split.
    { destruct (decide (p ∈ map product_id c)) as [|Hno]; [done|].
      apply find_product_None in Hno. congruence. }
    split; [done|]. split; [done|].
    by rewrite whole_truthy.
  - right. split; [done|]. split; [by apply find_product_None | done].
Qed.

(** *** The invariant under the operations *)

Lemma add_preserves (p : string) (prev : option QuickWidgetState) :
  cart_whole (currentCart prev) ->
  cart_whole (currentCart (handleAddToCart p prev)).
Proof.
  intros Hok.
  destruct (find (is_product p) (currentCart prev)) as [existing|] eqn:Hf.
  - rewrite (add_existing p prev existing Hf).
    apply cart_with_map; [intros item; by destruct (is_product p item) | | done].
    intros item Hin Hw.
    destruct (is_product p item); simpl; [|done].
    by apply whole_plus_one.
  - rewrite (add_new p prev Hf).
    apply cart_with_append; [by apply find_product_None | | done].
    apply whole_of_Z; unfold Double.MAX_EXACT; lia.
Qed.

Lemma remove_preserves (p : string) (prev : option QuickWidgetState) :
  cart_whole (currentCart prev) ->
  cart_whole (currentCart (handleRemoveFromCart p prev)).
Proof.
  intros Hok.
  destruct (find (is_product p) (currentCart prev)) as [existing|] eqn:Hf.
  2: { by rewrite (remove_absent p prev Hf). }
  destruct (Double.strict_eq (quantity existing) (Double.of_Z 1)) eqn:Hq1.
  - rewrite (remove_last p prev existing Hf Hq1).
    by apply cart_with_filter.
  - rewrite (remove_one p prev existing Hf Hq1).
    apply cart_with_map; [intros item; by destruct (is_product p item) | | done].
    intros item Hin Hw. destruct Hok as [_ Hn].
    destruct (is_product p item) eqn:E; simpl; [|done].
    apply is_product_true in E.
    rewrite (cart_entry_unique p _ existing item Hn Hf Hin E) in *.
    by apply whole_minus_one.
Qed.

Lemma operation_preserves (op : Operation)
    (prev : option QuickWidgetState) :
  cart_whole (currentCart prev) ->
  cart_whole (currentCart (updater op prev)).
Proof.
  intros Hok. destruct op as [p|p|p|favs p|c| |]; simpl.
  - by apply add_preserves.
  - by apply remove_preserves.
  - unfold handleRemoveAllFromCart. rewrite currentCart_with_cart.
    by apply cart_with_filter.
  - unfold handleToggleFavorite, currentCart. simpl.
    by rewrite currentCart_spread.
  - unfold handleCategoryClick, currentCart. simpl.
    by rewrite currentCart_spread.
  - unfold handleViewCart, currentCart. simpl.
    by rewrite currentCart_spread.
  - unfold handleBackToBrowse, currentCart. simpl.
    by rewrite currentCart_spread.
Qed.

(** Every state the widget reaches from the default state, or from no
    state at all, has a cart of whole-number quantities from 1 to 2^53,
    one entry per product. *)
Lemma reachable_cart_whole (ops : list Operation)
    (prev : option QuickWidgetState) :
  prev = None \/ prev = Some default_state ->
  cart_whole (currentCart (run ops prev)).
Proof.
  intros Hstart.
  assert (H0 : cart_whole (currentCart prev)).
  { destruct Hstart as [->| ->]; (split; [constructor|apply NoDup_nil_2]). }
  clear Hstart. revert prev H0. unfold run.
  induction ops as [|op ops IH]; intros prev H0; [done|].
  simpl. apply IH. by apply operation_preserves.
Qed.

(** C10, as the code has it. A quantity is a JS number. With a cart in
    which every entry has a whole-number quantity from 1 to 2^53 and no
    product has two entries, every operation of the widget leaves such
    a cart, so one of quantities of at least 1. Adding a product raises
    its quantity by one, up to 2^53 where it stays, and leaves the
    others: a product with an entry keeps the cart's products as they
    are, one without is appended with quantity 1. Removing a product
    that has an entry lowers its quantity by one and leaves the others:
    at quantity 1 the entry is deleted, otherwise the cart's products
    stay as they are. Removing a product that has no entry returns the
    document it was given. Every state the widget reaches from its
    default state, or from no state, has such a cart. *)
Theorem cart_invariant_preserved (prev : option QuickWidgetState) :
  cart_whole (currentCart prev) ->
  (forall op,
     cart_whole (currentCart (updater op prev)) /\
     cart_ok (currentCart (updater op prev))) /\
  (forall p,
     let c' := currentCart (handleAddToCart p prev) in
     exists n,
       0 <= n <= Double.MAX_EXACT /\
       getCartQuantity (currentCart prev) p = Double.of_Z n /\
       (n = 0 <-> p ∉ map product_id (currentCart prev)) /\
       getCartQuantity c' p =
         Double.of_Z (if n =? Double.MAX_EXACT then n else n + 1) /\
       (forall q, q <> p ->
          getCartQuantity c' q = getCartQuantity (currentCart prev) q) /\
       (p ∈ map product_id (currentCart prev) ->
          map product_id c' = map product_id (currentCart prev)) /\
       (p ∉ map product_id (currentCart prev) ->
          c' = currentCart prev ++ [mkItem p (Double.of_Z 1)])) /\
  (forall p,
     p ∈ map product_id (currentCart prev) ->
     let c' := currentCart (handleRemoveFromCart p prev) in
     exists n,
       1 <= n <= Double.MAX_EXACT /\
       getCartQuantity (currentCart prev) p = Double.of_Z n /\
       getCartQuantity c' p = Double.of_Z (n - 1) /\
       (forall q, q <> p ->
          getCartQuantity c' q = getCartQuantity (currentCart prev) q) /\
       (n = 1 ->
          (p ∉ map product_id c') /\
          c' = List.filter (fun item => negb (is_product p item))
                           (currentCart prev)) /\
       (n <> 1 ->
          map product_id c' = map product_id (currentCart prev))) /\
  (forall p,
     p ∉ map product_id (currentCart prev) ->
     handleRemoveFromCart p prev = prev) /\
  (forall ops start,
     start = None \/ start = Some default_state ->
     cart_whole (currentCart (run ops start))).
Proof.
  intros Hok.
  split.
  { intros op. pose proof (operation_preserves op prev Hok) as H.
    split; [done | by apply cart_whole_ok]. }
  split; [|split; [|split]];
    [| | |intros ops start; apply reachable_cart_whole].
  - intros p c'. subst c'.
    destruct (quantity_of_whole_cart (currentCart prev) p Hok)
      as [(existing & n & Hf & Hin & Hn & Hq & Hg)|(Hf & Hin & Hg)].
    + exists n. split; [lia|]. split; [done|].
      split; [split; [lia | done]|].
      rewrite (add_existing p prev existing Hf).
      split; [|split; [|split]].
      * unfold getCartQuantity.
        rewrite find_product_map by (intros item; by destruct (is_product p item)).
        rewrite Hf. simpl.
        apply find_product_Some in Hf as [Hid _].
        apply is_product_true in Hid. rewrite Hid. simpl.
        rewrite Hq, incr_whole by lia.
        assert (Hm : Z.min (n + 1) Double.MAX_EXACT =
                     if n =? Double.MAX_EXACT then n else n + 1).
        { destruct (Z.eqb_spec n Double.MAX_EXACT); lia. }
        rewrite Hm. apply whole_truthy, whole_of_Z.
        -- destruct (Z.eqb_spec n Double.MAX_EXACT); lia.
        -- destruct (Z.eqb_spec n Double.MAX_EXACT); lia.
      * intros q Hne. unfold getCartQuantity.
        rewrite find_product_map by (intros item; by destruct (is_product p item)).
        destruct (find (is_product q) (currentCart prev)) as [y|] eqn:Hy;
          [|done]. simpl.
        apply find_product_Some in Hy as [Hid _].
        assert (E : is_product p y = false)
          by (apply is_product_false; congruence).
        by rewrite E.
      * intros _. apply ids_map. intros item. by destruct (is_product p item).
      * done.
    + exists 0. split; [unfold Double.MAX_EXACT; lia|]. split; [done|].
      split; [done|].
      rewrite (add_new p prev Hf). split; [|split; [|split]].
      * unfold getCartQuantity. rewrite find_product_app, Hf.
        unfold is_product at 1. simpl. by rewrite String.eqb_refl.
      * intros q Hne. unfold getCartQuantity. rewrite find_product_app.
        destruct (find (is_product q) (currentCart prev)); [done|].
        unfold is_product at 1. simpl.
        apply not_eq_sym in Hne. apply String.eqb_neq in Hne.
        by rewrite Hne.
      * done.
      * done.
  - intros p Hin c'. subst c'.
    destruct (quantity_of_whole_cart (currentCart prev) p Hok)
      as [(existing & n & Hf & _ & Hn & Hq & Hg)|(_ & Hno & _)]; [|done].
    exists n. do 2 (split; [done|]).
    destruct (Double.strict_eq (quantity existing) (Double.of_Z 1)) eqn:Hq1.
    + pose proof Hq1 as Hone. rewrite Hq, strict_eq_one in Hone by lia.
      apply Z.eqb_eq in Hone as ->.
      rewrite (remove_last p prev existing Hf Hq1).
      assert (Hgone := ids_filter_out p (currentCart prev)).
      split; [|split; [|split]].
      * unfold getCartQuantity. apply find_product_None in Hgone.
        by rewrite Hgone.
      * intros q Hne. unfold getCartQuantity.
        by rewrite find_product_filter_other.
      * done.
      * done.
    + pose proof Hq1 as Hone. rewrite Hq, strict_eq_one in Hone by lia.
      apply Z.eqb_neq in Hone.
      rewrite (remove_one p prev existing Hf Hq1).
      split; [|split; [|split]].
      * unfold getCartQuantity.
        rewrite find_product_map by (intros item; by destruct (is_product p item)).
        rewrite Hf. simpl.
        pose proof (find_product_Some _ _ _ Hf) as [Hp _].
        apply is_product_true in Hp. rewrite Hp. simpl.
        rewrite Hq, decr_whole by lia.
        apply whole_truthy, whole_of_Z; lia.
      * intros q Hne. unfold getCartQuantity.
        rewrite find_product_map by (intros item; by destruct (is_product p item)).
        destruct (find (is_product q) (currentCart prev)) as [y|] eqn:Hy;
          [|done]. simpl.
        apply find_product_Some in Hy as [Hy _].
        assert (E : is_product p y = false)
          by (apply is_product_false; congruence).
        by rewrite E.
      * done.
      * intros _. apply ids_map. intros item. by destruct (is_product p item).
  - intros p Hn. apply remove_absent. by apply find_product_None.
Qed.
End CartInvariant.

Lemma cart_invariant_preserved_witness :
  let prev := Some (DeliveryQuick.with_cart
                      [DeliveryQuick.mkItem "milk" (Double.of_Z 2);
                       DeliveryQuick.mkItem "eggs" (Double.of_Z 1)]
                      DeliveryQuick.default_state) in
  DeliveryQuick.cart_ok
    (DeliveryQuick.currentCart
       (DeliveryQuick.updater (DeliveryQuick.RemoveFromCart "eggs") prev)) /\
  DeliveryQuick.handleRemoveFromCart "bread" prev = prev.
Proof.
  intros prev.
  assert (Hwhole : DeliveryQuick.cart_whole (DeliveryQuick.currentCart prev)).
  { split.
    - constructor;
        [apply (whole_of_Z 1 Double.MAX_EXACT 2);
         unfold Double.MAX_EXACT; lia|].
      constructor;
        [apply (whole_of_Z 1 Double.MAX_EXACT 1);
         unfold Double.MAX_EXACT; lia|].
      constructor.
    - apply (bool_decide_unpack _). vm_compute. exact I. }
  destruct (cart_invariant_preserved prev Hwhole)
    as (Hinv & _ & _ & Habsent & _).
  split; [apply Hinv|].
  apply Habsent. simpl.
  apply (bool_decide_unpack _). vm_compute. exact I.
Defined.

(** C10, the claim as stated fails. A quantity is a JS number, and at
    least 1 does not make it whole: in a cart whose one entry has
    quantity 1.5, the entry is the only one of its product and its
    quantity is at least 1, and removing the product once leaves the
    entry with quantity 0.5, which is not. And adding does not
    increment an entry of quantity 2^53: the next whole number is not a
    JS number, and the quantity stays. *)
Lemma fractional_quantity_falls_below_one :
  Double.valid Double.one_and_half = true /\
  Double.add Double.one_and_half Double.one_and_half = Double.of_Z 3 /\
  DeliveryQuick.cart_ok
    (DeliveryQuick.currentCart DeliveryQuick.fractional_cart) /\
  ~ DeliveryQuick.cart_ok
      (DeliveryQuick.currentCart
         (DeliveryQuick.updater (DeliveryQuick.RemoveFromCart "milk")
            DeliveryQuick.fractional_cart)) /\
  DeliveryQuick.cart_ok (DeliveryQuick.currentCart DeliveryQuick.full_cart) /\
  DeliveryQuick.currentCart
    (DeliveryQuick.updater (DeliveryQuick.AddToCart "milk")
       DeliveryQuick.full_cart) =
    DeliveryQuick.currentCart DeliveryQuick.full_cart.
Proof.
  split; [vm_compute; reflexivity|]. split; [vm_compute; reflexivity|].
  split.
  { split; [|apply NoDup_singleton].
    constructor; [vm_compute; reflexivity | constructor]. }
  split.
  { intros [Hq _]. apply Forall_inv in Hq. vm_compute in Hq.
    discriminate Hq. }
  split.
  { split; [|apply NoDup_singleton].
    constructor; [vm_compute; reflexivity | constructor]. }
  vm_compute. reflexivity.
Qed.

(* ===================================================================== *)
(** * Part III: further properties of the code                             *)
(* ===================================================================== *)

(** ** Environment lists and transport security *)

Section EnvironmentLists.
Import Server.

Lemma lstrip_nil_iff (s : string) : lstrip s = "" <-> all_space s = true.
Proof.
  induction s as [|c s IH]; simpl; [done|].
  destruct (isspace c); simpl; [done|]. split; discriminate.
Qed.

Lemma lstrip_head (s : string) :
  lstrip s = "" \/ exists c t, lstrip s = String c t /\ isspace c = false.
Proof.
  induction s as [|c s IH]; simpl; [by left|].
  destruct (isspace c) eqn:E; [done|]. right. by exists c, s.
Qed.

Lemma rstrip_cons_nonspace (c : ascii) (t : string) :
  isspace c = false -> rstrip (String c t) = String c (rstrip t).
Proof. intros E. simpl. rewrite E. by destruct (rstrip t). Qed.

Lemma rstrip_nil_iff (s : string) : rstrip s = "" <-> all_space s = true.
Proof.
  induction s as [|c s IH]; simpl; [done|].
  destruct (rstrip s) as [|d r] eqn:Er.
  - destruct (isspace c); simpl; [tauto|]. split; discriminate.
  - rewrite andb_true_iff. split; [discriminate|].
    intros [_ Hs]. apply IH in Hs. discriminate Hs.
Qed.

Lemma rstrip_idem (s : string) : rstrip (rstrip s) = rstrip s.
Proof.
  induction s as [|c s IH]; simpl; [done|].
  destruct (rstrip s) as [|d r] eqn:Er.
  - destruct (isspace c) eqn:E; simpl; [done|]. by rewrite E.
  - change (rstrip (String c (String d r)))
      with (match rstrip (String d r) with
            | EmptyString =>
                if isspace c then EmptyString else String c EmptyString
            | r' => String c r'
            end).
    by rewrite IH.
Qed.

Lemma lstrip_rstrip_lstrip (s : string) :
  lstrip (rstrip (lstrip s)) = rstrip (lstrip s).
Proof.
  destruct (lstrip_head s) as [->|(c & t & -> & E)]; [done|].
  rewrite rstrip_cons_nonspace by done. simpl. by rewrite E.
Qed.

Lemma strip_idem (s : string) : strip (strip s) = strip s.
Proof.
  unfold strip. by rewrite lstrip_rstrip_lstrip, rstrip_idem.
Qed.

Lemma strip_nil_iff (s : string) : strip s = "" <-> all_space s = true.
Proof.
  unfold strip. rewrite rstrip_nil_iff. split.
  - intros Ha. apply lstrip_nil_iff.
    destruct (lstrip_head s) as [E|(c & t & E & Ec)]; [done|].
    rewrite E in Ha. simpl in Ha. by rewrite Ec in Ha.
  - intros Ha. apply lstrip_nil_iff in Ha. by rewrite Ha.
Qed.

Lemma comma_free_lstrip (s : string) :
  comma_free s = true -> comma_free (lstrip s) = true.
Proof.
  induction s as [|c s IH]; simpl; [done|].
  intros H. destruct (isspace c); [|done].
  apply andb_true_iff in H as [_ H]. auto.
Qed.

Lemma comma_free_rstrip (s : string) :
  comma_free s = true -> comma_free (rstrip s) = true.
Proof.
  induction s as [|c s IH]; simpl; [done|].
  intros H. apply andb_true_iff in H as [Hc H]. specialize (IH H).
  destruct (rstrip s) as [|d r].
  - destruct (isspace c); [done|]. simpl. by rewrite Hc.
  - simpl. simpl in IH. by rewrite Hc, IH.
Qed.

Lemma comma_free_strip (s : string) :
  comma_free s = true -> comma_free (strip s) = true.
Proof. intros H. by apply comma_free_rstrip, comma_free_lstrip. Qed.

Lemma split_comma_pieces (s : string) :
  Forall (fun p => comma_free p = true) (split_comma s).
Proof.
  induction s as [|c s IH]; simpl; [by repeat constructor|].
  destruct (Ascii.eqb c ",") eqn:E; [by constructor|].
  destruct (split_comma s) as [|p ps]; [by repeat constructor; simpl; rewrite E|].
  apply Forall_cons in IH as [Hp Hps].
  constructor; [|done]. simpl. by rewrite E, Hp.
Qed.

Lemma split_comma_single (x : string) :
  comma_free x = true -> split_comma x = [x].
Proof.
  induction x as [|c x IH]; simpl; [done|].
  intros H. apply andb_true_iff in H as [Hc H].
  apply negb_true_iff in Hc. rewrite Hc, IH; done.
Qed.

Lemma split_comma_app (x rest : string) :
  comma_free x = true ->
  split_comma (x +:+ "," +:+ rest) = x :: split_comma rest.
Proof.
  induction x as [|c x IH]; intros H.
  - reflexivity.
  - simpl in H. apply andb_true_iff in H as [Hc H].
    apply negb_true_iff in Hc.
    change (String c x +:+ "," +:+ rest)
      with (String c (x +:+ "," +:+ rest)).
    simpl. by rewrite Hc, IH.
Qed.

Lemma split_comma_concat (xs : list string) :
  xs <> [] -> Forall (fun x => comma_free x = true) xs ->
  split_comma (String.concat "," xs) = xs.
Proof.
  induction xs as [|x xs IH]; [done|]. intros _ Hf.
  apply Forall_cons in Hf as [Hx Hxs].
  destruct xs as [|y ys].
  - simpl. by apply split_comma_single.
  - change (String.concat "," (x :: y :: ys))
      with (x +:+ "," +:+ String.concat "," (y :: ys)).
    rewrite split_comma_app by done. by rewrite IH.
Qed.

Lemma filter_map_strip (xs : list string) :
  map strip (List.filter (fun item => truthy (strip item)) xs) =
  List.filter truthy (map strip xs).
Proof.
  induction xs as [|x xs IH]; simpl; [done|].
  destruct (truthy (strip x)); simpl; by rewrite IH.
Qed.

Lemma truthy_false (s : string) : truthy s = false <-> s = "".
Proof. destruct s; simpl; split; done. Qed.

Lemma split_comma_nonempty (s : string) : split_comma s <> [].
Proof.
  induction s as [|c s IH]; simpl; [done|].
  destruct (Ascii.eqb c ","); [done|]. by destruct (split_comma s).
Qed.

Lemma split_comma_blank (s : string) :
  Forall (fun p => all_space p = true) (split_comma s) <-> blank s = true.
Proof.
  induction s as [|c s IH]; simpl.
  - split; [done | by repeat constructor].
  - destruct (Ascii.eqb c ",") eqn:E; simpl.
    + rewrite Forall_cons, IH. simpl. tauto.
    + destruct (split_comma s) as [|p ps] eqn:Es.
      * by apply split_comma_nonempty in Es.
      * rewrite !Forall_cons in *. simpl.
        rewrite !andb_true_iff, <- IH. tauto.
Qed.

(** The list is empty exactly for values of commas and white space. *)
Lemma split_env_list_nil (v : string) :
  _split_env_list (Some v) = [] <-> blank v = true.
Proof.
  unfold _split_env_list. destruct (truthy v) eqn:Ev.
  2: { apply truthy_false in Ev as ->. done. }
  rewrite filter_map_strip, <- split_comma_blank.
  assert (forall l : list string,
            List.filter truthy (map strip l) = [] <->
            Forall (fun p => all_space p = true) l) as ->; [|done].
  induction l as [|p l IH]; simpl; [done|].
  rewrite Forall_cons, <- IH, <- strip_nil_iff.
  destruct (strip p); simpl; [tauto|]. split; [done|]. by intros [? _].
Qed.

(** X1. Whatever the value of the variable, every entry of the list
    [_split_env_list] returns is a non-empty string without comma and
    without white space at either end; an unset or empty variable gives
    the empty list. *)
Theorem split_env_entries_clean (value : option string) :
  (forall item, item ∈ _split_env_list value ->
     item <> "" /\ comma_free item = true /\
     lstrip item = item /\ rstrip item = item) /\
  _split_env_list None = [] /\ _split_env_list (Some "") = [].
Proof.
  split; [|done]. intros item Hin.
  destruct value as [v|]; simpl in Hin; [|by apply elem_of_nil in Hin].
  destruct (truthy v); [|by apply elem_of_nil in Hin].
  apply list_elem_of_In, in_map_iff in Hin as (p & <- & Hp).
  apply filter_In in Hp as [Hp Ht].
  assert (Hc : comma_free p = true).
  { pose proof (split_comma_pieces v) as Hf.
    rewrite Forall_forall in Hf. by apply Hf, list_elem_of_In. }
  split; [intros E; by rewrite E in Ht|].
  split; [by apply comma_free_strip|].
  split; [apply lstrip_rstrip_lstrip | apply rstrip_idem].
Qed.

(** X2. On the comma-joined text of pieces without comma, the list is the
    pieces stripped, without the ones that strip to nothing; so a list of
    entries that are non-empty and stripped is read back as it is. *)
Theorem split_env_of_joined (xs : list string) :
  Forall (fun x => comma_free x = true) xs ->
  _split_env_list (Some (String.concat "," xs)) =
    List.filter truthy (map strip xs) /\
  (Forall (fun x => x <> "" /\ strip x = x) xs ->
   _split_env_list (Some (String.concat "," xs)) = xs).
Proof.
  intros Hf.
  assert (Hgen : _split_env_list (Some (String.concat "," xs)) =
                 List.filter truthy (map strip xs)).
  { unfold _split_env_list.
    destruct (truthy (String.concat "," xs)) eqn:Et.
    - assert (xs <> []) by (intros ->; discriminate Et).
      rewrite split_comma_concat by done. apply filter_map_strip.
    - apply truthy_false in Et.
      destruct xs as [|x [|y ys]]; [done| |].
      + simpl in Et. by subst x.
      + change (String.concat "," (x :: y :: ys))
          with (x +:+ "," +:+ String.concat "," (y :: ys)) in Et.
        destruct x; discriminate Et. }
  split; [done|]. intros Hclean. rewrite Hgen. clear Hgen Hf.
  induction Hclean as [|x xs [Hne Hs] _ IH]; simpl; [done|].
  rewrite Hs. destruct x; [done|]. simpl. by rewrite IH.
Qed.

(** X3. DNS rebinding protection is switched off exactly when each of the
    two variables is unset or holds commas and white space only; when it
    is on, the two allowed lists are the lists read from the variables,
    and when it is off both are empty. *)
Theorem rebinding_protection_off_iff_blank (environ : gmap string string) :
  let settings := _transport_security_settings environ in
  (enable_dns_rebinding_protection settings = false <->
   (forall v, environ !! "MCP_ALLOWED_HOSTS" = Some v -> blank v = true) /\
   (forall v, environ !! "MCP_ALLOWED_ORIGINS" = Some v -> blank v = true)) /\
  (enable_dns_rebinding_protection settings = true ->
   allowed_hosts settings =
     _split_env_list (environ !! "MCP_ALLOWED_HOSTS") /\
   allowed_origins settings =
     _split_env_list (environ !! "MCP_ALLOWED_ORIGINS")) /\
  (enable_dns_rebinding_protection settings = false ->
   allowed_hosts settings = [] /\ allowed_origins settings = []).
Proof.
  intros settings. subst settings. unfold _transport_security_settings.
  assert (Hn : forall o : option string,
             _split_env_list o = [] <->
             forall v, o = Some v -> blank v = true).
  { intros [v|].
    - rewrite split_env_list_nil. split; [by intros ? ? [= <-] | eauto].
    - split; [done|]. done. }
  rewrite <- !Hn.
  destruct (_split_env_list (environ !! "MCP_ALLOWED_HOSTS")) as [|h hs];
    destruct (_split_env_list (environ !! "MCP_ALLOWED_ORIGINS")) as [|o os];
    simpl; repeat split; try done; intros [? ?]; done.
Qed.
End EnvironmentLists.

Lemma split_env_of_joined_witness :
  Server._split_env_list (Some "localhost:5000,example.ngrok.io") =
    ["localhost:5000"; "example.ngrok.io"].
Proof.
  apply (proj2 (split_env_of_joined ["localhost:5000"; "example.ngrok.io"]
                  ltac:(repeat constructor))).
  repeat constructor; done.
Defined.

(** ** Listings, resources and the registry *)

Section RegistryProperties.
Import Server.

(** A dict built from a list by a key keeps, under each key, the last
    entry of the list with that key. *)
Lemma foldl_insert_lookup_last (key : MyWidget -> string)
    (l : list MyWidget) (m : gmap string MyWidget) (k : string) :
  foldl (fun m w => <[key w := w]> m) m l !! k =
  match last_with key k l with
  | Some w => Some w
  | None => m !! k
  end.
Proof.
  revert m. induction l as [|a l IH]; intros m; [done|].
  simpl. rewrite IH. unfold last_with. simpl.
  destruct (String.eqb_spec (key a) k) as [<-|Hne].
  - rewrite last_cons.
    destruct (last (List.filter _ l)); [done|]. apply lookup_insert_eq.
  - destruct (last (List.filter _ l)); [done|]. by apply lookup_insert_ne.
Qed.

Lemma last_with_Some (key : MyWidget -> string) (k : string)
    (l : list MyWidget) (w : MyWidget) :
  last_with key k l = Some w -> w ∈ l /\ key w = k.
Proof.
  unfold last_with. intros Hl. apply last_Some_elem_of in Hl.
  apply list_elem_of_In, filter_In in Hl as [Hin Hk].
  split; [by apply list_elem_of_In | by apply String.eqb_eq].
Qed.

Lemma last_with_None (key : MyWidget -> string) (k : string)
    (l : list MyWidget) :
  last_with key k l = None <-> k ∉ map key l.
Proof.
  unfold last_with. rewrite last_None. induction l as [|a l IH]; simpl.
  - split; [intros _; apply not_elem_of_nil | done].
  - rewrite not_elem_of_cons.
    destruct (String.eqb_spec (key a) k) as [<-|Hne].
    + split; [done | by intros [? _]].
    + rewrite IH. split; [intros ?; split; [by intros ->|done] | tauto].
Qed.

Lemma WIDGETS_BY_ID_last (widgets : list MyWidget) (n : string) :
  WIDGETS_BY_ID widgets !! n = last_with identifier n widgets.
Proof.
  unfold WIDGETS_BY_ID. rewrite foldl_insert_lookup_last, lookup_empty.
  by destruct (last_with identifier n widgets).
Qed.

Lemma WIDGETS_BY_URI_last (widgets : list MyWidget) (u : string) :
  WIDGETS_BY_URI widgets !! u = last_with template_uri u widgets.
Proof.
  unfold WIDGETS_BY_URI. rewrite foldl_insert_lookup_last, lookup_empty.
  by destruct (last_with template_uri u widgets).
Qed.

(** X4. Reading a resource. For a URI that is the template of no widget
    the result has no contents and the error "Unknown resource: <uri>" in
    its metadata. For the URI of a listed resource it has exactly one
    content, under the requested URI and with the widget MIME type, whose
    text and metadata are those of the last widget of the list with that
    template: of two widgets that share a template, the markup of the
    later one is served for both. *)
Theorem read_resource_serves_last_widget (widgets : list MyWidget)
    (requested : string) :
  (requested ∉ map uri (_list_resources widgets) ->
   _handle_read_resource widgets requested =
     mkRead [] (Some [("error",
                       PyStr ("Unknown resource: " +:+ requested))])) /\
  (requested ∈ map uri (_list_resources widgets) ->
   exists widget,
     last_with template_uri requested widgets = Some widget /\
     widget ∈ widgets /\
     _handle_read_resource widgets requested =
       mkRead [mkContents requested MIME_TYPE (html widget)
                          (_tool_meta widget)] None).
Proof.
  assert (Hu : map uri (_list_resources widgets) = map template_uri widgets).
  { unfold _list_resources. rewrite map_map. by apply map_ext. }
  rewrite Hu. unfold _handle_read_resource. rewrite WIDGETS_BY_URI_last.
  split.
  - intros Hn. apply last_with_None in Hn. by rewrite Hn.
  - intros Hin.
    destruct (last_with template_uri requested widgets) as [widget|] eqn:Hl.
    + apply last_with_Some in Hl as [Hw <-]. by exists widget.
    + by apply last_with_None in Hl.
Qed.
End RegistryProperties.

Lemma extra_errors_nil (declared : list string) (d : pydict) :
  (forall k, k ∈ dict_keys d -> k ∈ declared) ->
  extra_errors declared d = [].
Proof.
  unfold extra_errors, dict_keys.
  induction d as [|[k x] d IHd]; intros Hkeys; [done|].
  simpl. rewrite bool_decide_eq_true_2 by (apply Hkeys; left).
  simpl. apply IHd. intros k' Hk'. apply Hkeys. by right.
Qed.

Section ListedTools.
Import Server.
Context `{Runtime}.
Variable widgets : list MyWidget.

Lemma list_tools_names :
  map tool_name (_list_tools widgets) = map identifier widgets.
Proof. unfold _list_tools. rewrite map_map. by apply map_ext. Qed.

(** X5. The tools are listed in the order of the widgets, one per widget,
    under the widgets' identifiers. A call of a listed name is never
    answered "Unknown tool"; it is served by the last widget of the list
    with that identifier, so with valid arguments and a handler that
    returns, the metadata of the result are the status strings of that
    widget. *)
Theorem listed_tool_is_served_by_last_widget
    (req : CallToolRequest) (w : World) :
  map tool_name (_list_tools widgets) = map identifier widgets /\
  (name req ∈ map tool_name (_list_tools widgets) ->
   exists widget,
     last_with identifier (name req) widgets = Some widget /\
     fst (_call_tool_request widgets req w) <>
       Return (error_result ("Unknown tool: " +:+ name req)) /\
     forall payload items w',
       model_validate (default [] (arguments req)) = inr payload ->
       _fetch_from_api (query payload) (limit payload) w =
         (Return items, w') ->
       exists r,
         _call_tool_request widgets req w = (Return r, w') /\
         _meta r = Some (_tool_invocation_meta widget)).
Proof.
  split; [apply list_tools_names|]. rewrite list_tools_names. intros Hin.
  destruct (last_with identifier (name req) widgets) as [widget|] eqn:Hl;
    [|by apply last_with_None in Hl].
  exists widget. split; [done|].
  assert (Hw : WIDGETS_BY_ID widgets !! name req = Some widget)
    by by rewrite WIDGETS_BY_ID_last.
  split.
  - destruct (call_cases widgets req w)
      as [[E _]|[(errs & _ & E)|(wd & pl & _ & _ &
            [(items & w2 & _ & E)|(exc0 & w2 & _ & E)])]].
    + congruence.
    + rewrite E. simpl. discriminate.
    + rewrite E. simpl. discriminate.
    + rewrite E.
      destruct (isinstance_HTTPError exc0); [simpl; discriminate|].
      destruct (isinstance_Exception exc0); simpl; discriminate.
  - intros payload items w' Hv Hf. eexists.
    split; [by apply (call_handler_returns widgets req w widget payload
                        items w')|].
    reflexivity.
Qed.

(** X6. The shape of a result. Whatever the call, a result the dispatcher
    returns has exactly one text; an error result carries neither
    structured content nor metadata, and a result that is no error
    carries both. *)
Theorem result_is_error_or_structured
    (req : CallToolRequest) (w : World) (r : CallToolResult) (w' : World) :
  _call_tool_request widgets req w = (Return r, w') ->
  length (content r) = 1%nat /\
  (isError r = true -> structuredContent r = None /\ _meta r = None) /\
  (isError r = false ->
   is_Some (structuredContent r) /\ is_Some (_meta r)).
Proof.
  intros Hcall.
  destruct (call_cases widgets req w)
    as [[_ E]|[(errs & _ & E)|(wd & pl & _ & _ &
          [(items & w2 & _ & E)|(exc0 & w2 & _ & E)])]];
    rewrite E in Hcall.
  - injection Hcall as <- _. by repeat split.
  - injection Hcall as <- _. by repeat split.
  - injection Hcall as <- _. simpl. repeat split; try done; by eexists.
  - destruct (isinstance_HTTPError exc0);
      [injection Hcall as <- _; by repeat split|].
    destruct (isinstance_Exception exc0);
      [injection Hcall as <- _; by repeat split | discriminate Hcall].
Qed.

(** X7. The default of [limit]. When the arguments hold a valid [query],
    no [limit] and no key but declared ones, validation succeeds with
    [limit = 10]: the handler is asked for that query with a limit of
    10, and its items make the result. *)
Theorem missing_limit_defaults_to_ten
    (req : CallToolRequest) (w : World) (v : pyvalue) (q : string) :
  name req ∈ map identifier widgets ->
  dict_get "query" (default [] (arguments req)) = Some v ->
  validate_str v = Valid q ->
  dict_get "limit" (default [] (arguments req)) = None ->
  (forall k, k ∈ dict_keys (default [] (arguments req)) ->
             k ∈ properties TOOL_INPUT_SCHEMA) ->
  model_validate (default [] (arguments req)) = inr (mkInput q 10) /\
  forall items w',
    _fetch_from_api q 10 w = (Return items, w') ->
    exists r,
      _call_tool_request widgets req w = (Return r, w') /\
      isError r = false /\
      structuredContent r =
        Some (structured_data items (mkInput q 10) (now_isoformat w')).
Proof.
  intros Hreg Hq Hv Hl Hkeys.
  assert (Hval : model_validate (default [] (arguments req)) =
                 inr (mkInput q 10)).
  { unfold model_validate, validate_field. rewrite Hq, Hv, Hl.
    by rewrite (extra_errors_nil _ _ Hkeys). }
  split; [done|]. intros items w' Hf.
  destruct (WIDGETS_BY_ID widgets !! name req) as [widget|] eqn:Hw;
    [|by apply WIDGETS_BY_ID_None in Hw].
  eexists. split; [by apply (call_handler_returns widgets req w widget
                               (mkInput q 10) items w')|].
  done.
Qed.
End ListedTools.

(** ** The handler seen from the dispatcher *)

Section HandlerCalls.
Variable R : Runtime.
Variable widgets : list MyWidget.

(** X8. The handler runs at most once in a call. With the handler's
    calls logged, the call gives the same result and leaves the same
    world as without the log; the log is unchanged when the tool is
    unknown or the arguments are invalid, and grows by exactly one entry,
    the validated query and limit, in every other case. *)
Theorem handler_runs_at_most_once
    (req : CallToolRequest) (w : @World R) (log : list (string * Z)) :
  let out := @_call_tool_request (logged R) widgets req (w, log) in
  let args := default [] (arguments req) in
  fst out = fst (@_call_tool_request R widgets req w) /\
  fst (snd out) = snd (@_call_tool_request R widgets req w) /\
  ((snd (snd out) = log /\
    (name req ∉ map identifier widgets \/
     exists errs, @model_validate R args = inl errs)) \/
   (exists payload,
      name req ∈ map identifier widgets /\
      @model_validate R args = inr payload /\
      snd (snd out) = log ++ [(query payload, limit payload)])).
Proof.
  intros out args. subst out. unfold _call_tool_request.
  change (@model_validate (logged R) (default [] (arguments req)))
    with (@model_validate R args).
  fold args.
  destruct (WIDGETS_BY_ID widgets !! name req) as [widget|] eqn:Hw.
  2: { simpl. do 2 (split; [done|]). left. split; [done|]. left.
       by apply WIDGETS_BY_ID_None. }
  assert (Hreg : name req ∈ map identifier widgets).
  { destruct (decide (name req ∈ map identifier widgets)) as [|Hn]; [done|].
    apply WIDGETS_BY_ID_None in Hn. congruence. }
  destruct (@model_validate R args) as [errs|payload] eqn:Hv.
  { simpl. do 2 (split; [done|]). left. split; [done|]. right. by exists errs. }
  simpl.
  destruct (@_fetch_from_api R (query payload) (limit payload) w)
    as [[items|exc] w1] eqn:Hf; simpl.
  - do 2 (split; [done|]). right. by exists payload.
  - destruct (isinstance_HTTPError exc); simpl.
    { do 2 (split; [done|]). right. by exists payload. }
    destruct (isinstance_Exception exc); simpl;
      (do 2 (split; [done|]); right; by exists payload).
Qed.
End HandlerCalls.

Lemma mock_item_has_fields (q : string) (i : nat) :
  has_fields ItemData_required (model_dump (mock_item q i)) = true.
Proof. reflexivity. Qed.

(** X9. The mock handler of the template. It returns [min(limit, 5)]
    items, none for a limit of zero or less, with pairwise different
    ids; every item has the five fields of [ItemData], so the structured
    content the dispatcher builds from them has the shape of the output
    model. *)
Theorem mock_handler_meets_output_model
    (q : string) (lim : Z) (payload : MyToolInput) (timestamp : string) :
  let items := mock_fetch q lim in
  length items = Z.to_nat (Z.min lim 5) /\
  (length items <= 5)%nat /\
  (lim <= 0 -> items = []) /\
  NoDup (map (fun m => dict_get "id" (model_fields m)) items) /\
  conforms_MyToolOutput (structured_data items payload timestamp) = true.
Proof.
  intros items. subst items. unfold mock_fetch.
  split; [by rewrite length_map, length_seq|].
  split; [rewrite length_map, length_seq; lia|].
  split.
  { intros Hl. by replace (Z.to_nat (Z.min lim 5)) with 0%nat by lia. }
  split.
  - rewrite map_map.
    assert (Hinj : Inj (=) (=)
              (fun i : nat => dict_get "id" (model_fields (mock_item q i)))).
    { intros i j Heq. simpl in Heq. injection Heq as Heq.
      change (pretty i = pretty j) in Heq. by apply (inj pretty) in Heq. }
    apply (NoDup_fmap_2 _), NoDup_seq.
  - unfold conforms_MyToolOutput. simpl.
    apply forallb_forall. intros x Hx.
    apply in_map_iff in Hx as (m & <- & Hm).
    apply in_map_iff in Hm as (i & <- & _). apply mock_item_has_fields.
Qed.

Lemma result_is_error_or_structured_witness :
  let r := mkResult ["Found 2 items for 'pizza'"]
             (Some (structured_data (mock_fetch "pizza" 2)
                      (mkInput "pizza" 2) "2025-01-01T00:00:00"))
             (Some (_tool_invocation_meta demo_widget)) false in
  length (content r) = 1%nat /\
  (isError r = true -> structuredContent r = None /\ _meta r = None) /\
  (isError r = false ->
   is_Some (structuredContent r) /\ is_Some (_meta r)).
Proof.
  exact (@result_is_error_or_structured mock_runtime demo_widgets
           (demo_call pizza_args) world0 _ _ eq_refl).
Defined.

Lemma missing_limit_defaults_to_ten_witness :
  @model_validate mock_runtime [("query", PyStr "pizza")] =
    inr (mkInput "pizza" 10).
Proof.
  refine (proj1 (@missing_limit_defaults_to_ten mock_runtime demo_widgets
                   (demo_call [("query", PyStr "pizza")]) world0
                   (PyStr "pizza") "pizza" _ eq_refl eq_refl eq_refl _)).
  - simpl. left.
  - simpl. intros k Hk. apply list_elem_of_singleton in Hk as ->. left.
Defined.

(** ** More on resource resolution *)

Section ResolverRunsProperties.
Import Resolver ResolverRuns.
Variable ASSETS_DIR : string.

Lemma run_calls_snoc (calls : list (directory * string))
    (c : directory * string) (st : CacheState) :
  run_calls ASSETS_DIR (calls ++ [c]) st =
    snd (_load_widget_html ASSETS_DIR (fst c) (snd c)
           (run_calls ASSETS_DIR calls st)).
Proof. unfold run_calls. by rewrite foldl_app. Qed.

Lemma load_step_counters (dir : directory) (n : string) (st : CacheState) :
  let st' := snd (_load_widget_html ASSETS_DIR dir n st) in
  (hits st' + misses st' = S (hits st + misses st))%nat /\
  (misses st <= misses st')%nat /\
  (size (cache st') + misses st <= size (cache st) + misses st')%nat.
Proof.
  unfold _load_widget_html.
  destruct (cache st !! n) as [r|] eqn:Hc; simpl; [lia|].
  destruct (_load_widget_html__wrapped ASSETS_DIR dir n); simpl; [|lia].
  rewrite map_size_insert_None by done. lia.
Qed.

(** X10. The counters of the cache over a run of calls. Each call is
    either a hit or a miss; the cache gains at most one entry per miss
    and loses none: an entry, once kept, is there with the same text
    after any further calls. *)
Theorem cache_counters_and_growth
    (calls : list (directory * string)) (st : CacheState) :
  let st' := run_calls ASSETS_DIR calls st in
  (hits st' + misses st' = hits st + misses st + length calls)%nat /\
  (misses st <= misses st')%nat /\
  (size (cache st') + misses st <= size (cache st) + misses st')%nat /\
  (forall name text, cache st !! name = Some text ->
                     cache st' !! name = Some text).
Proof.
  intros st'. subst st'.
  split; [|split; [|split]]; revert st;
    induction calls as [|[d n] calls IH]; intros st; simpl;
    try (destruct (load_step_counters d n st) as (H1 & H2 & H3);
         specialize (IH (snd (_load_widget_html ASSETS_DIR d n st))));
    try lia; try done.
  intros name text Hc. apply IH.
  by apply (cached_entry_stays ASSETS_DIR).
Qed.

Lemma coherent_step (dir : directory) (n : string) (st : CacheState) :
  coherent ASSETS_DIR dir st ->
  coherent ASSETS_DIR dir (snd (_load_widget_html ASSETS_DIR dir n st)) /\
  fst (_load_widget_html ASSETS_DIR dir n st) =
    _load_widget_html__wrapped ASSETS_DIR dir n.
Proof.
  intros Hco. unfold _load_widget_html.
  destruct (cache st !! n) as [r|] eqn:Hc; simpl.
  - split; [done|]. symmetry. by apply Hco.
  - destruct (_load_widget_html__wrapped ASSETS_DIR dir n) as [r|e] eqn:Hl;
      simpl; (split; [|done]); [|done].
    intros name text. simpl. rewrite lookup_insert_Some.
    intros [[<- <-]|[_ Hn]]; [done | by apply Hco].
Qed.

(** X11. While the directory stays the same, the cache cannot be told
    from the body: starting with a cache whose entries agree with the
    directory (the empty one does), after calls for any names on that
    directory the entries still agree, and a call for any name returns
    or raises exactly what the body does. *)
Theorem cache_transparent_on_fixed_directory
    (dir : directory) (names : list string) (name : string)
    (st : CacheState) :
  coherent ASSETS_DIR dir st ->
  let st' := run_calls ASSETS_DIR (calls_on dir names) st in
  coherent ASSETS_DIR dir st' /\
  fst (_load_widget_html ASSETS_DIR dir name st') =
    _load_widget_html__wrapped ASSETS_DIR dir name.
Proof.
  intros Hco st'. subst st'.
  assert (Hrun : coherent ASSETS_DIR dir
                   (run_calls ASSETS_DIR (calls_on dir names) st)).
  { revert st Hco. induction names as [|n names IH]; intros st Hco; [done|].
    simpl. apply IH. by apply coherent_step. }
  split; [done|]. by apply coherent_step.
Qed.

(** *** What a resolution depends on *)

Lemma load_cases (dir : directory) (name : string) :
  literal name = true ->
  (exists text, dir !! (name +:+ ".html") = Some text /\
     _load_widget_html__wrapped ASSETS_DIR dir name = Return text) \/
  (dir !! (name +:+ ".html") = None /\
   exists f text,
     versioned name f /\ dir !! f = Some text /\
     _load_widget_html__wrapped ASSETS_DIR dir name = Return text /\
     forall g, versioned name g -> is_Some (dir !! g) -> String.le g f) \/
  (dir !! (name +:+ ".html") = None /\
   (forall g, versioned name g -> dir !! g = None) /\
   _load_widget_html__wrapped ASSETS_DIR dir name =
     Raise (FileNotFoundError (not_found_message ASSETS_DIR name))).
Proof.
  intros Hlit.
  destruct (dir !! (name +:+ ".html")) as [text|] eqn:Hex.
  { left. exists text. split; [done|]. by apply load_exact. }
  right.
  destruct (glob dir (name +:+ "-*.html")) as [|[f0 t0] l] eqn:Hg.
  - right. split; [done|]. split; [|by apply load_not_found].
    intros g Hv. destruct (dir !! g) as [t|] eqn:Hd; [|done].
    assert (Hin : (g, t) ∈ glob dir (name +:+ "-*.html")).
    { apply elem_of_glob. split; [done | by apply fnmatch_versioned]. }
    rewrite Hg in Hin. by apply elem_of_nil in Hin.
  - left. split; [done|].
    destruct (load_fallback ASSETS_DIR dir name Hex)
      as (f & text & Hin & Hr & Hmax); [by rewrite Hg|].
    apply elem_of_glob in Hin as [Hf Hm].
    exists f, text. split; [by apply fnmatch_versioned|].
    do 2 (split; [done|]). intros g Hv [t Ht].
    apply (Hmax g t), elem_of_glob.
    split; [done | by apply fnmatch_versioned].
Qed.

(** X12. A text the resolver returns is the text of a file of the
    directory: of [name.html], or of a file [name-<suffix>.html] when
    [name.html] is not there. *)
Theorem resolved_text_is_a_file
    (dir : directory) (name text : string) (st : CacheState) :
  literal name = true ->
  cache st !! name = None ->
  fst (_load_widget_html ASSETS_DIR dir name st) = Return text ->
  dir !! (name +:+ ".html") = Some text \/
  (dir !! (name +:+ ".html") = None /\
   exists f, versioned name f /\ dir !! f = Some text).
Proof.
  intros Hlit Hc. rewrite (load_uncached ASSETS_DIR dir name st Hc).
  destruct (load_cases dir name Hlit)
    as [(t & Hex & ->)|[(Hex & f & t & Hv & Hf & -> & _)|(_ & _ & ->)]].
  - intros [= ->]. by left.
  - intros [= ->]. right. split; [done|]. by exists f.
  - discriminate.
Qed.

(** X13. The resolution of a name depends on the files of that name
    only: two directories that agree on [name.html] and on every file
    [name-<suffix>.html] give the same result, whatever else they
    hold. *)
Theorem resolution_ignores_other_files
    (dir dir' : directory) (name : string) :
  literal name = true ->
  dir !! (name +:+ ".html") = dir' !! (name +:+ ".html") ->
  (forall f, versioned name f -> dir !! f = dir' !! f) ->
  _load_widget_html__wrapped ASSETS_DIR dir name =
    _load_widget_html__wrapped ASSETS_DIR dir' name.
Proof.
  intros Hlit Hex Hver.
  destruct (load_cases dir name Hlit)
    as [(t & Hd & ->)|[(Hd & f & t & Hv & Hf & -> & Hmax)|(Hd & Hnone & ->)]];
    destruct (load_cases dir' name Hlit)
      as [(t' & Hd' & ->)|[(Hd' & f' & t' & Hv' & Hf' & -> & Hmax')
                          |(Hd' & Hnone' & ->)]];
    try congruence.
  - assert (f = f') as <-.
    { apply (anti_symm String.le).
      - apply Hmax'; [done|]. rewrite <- Hver by done. by eexists.
      - apply Hmax; [done|]. rewrite Hver by done. by eexists. }
    rewrite Hver in Hf by done. congruence.
  - rewrite Hver, Hnone' in Hf by done. discriminate Hf.
  - rewrite <- Hver, Hnone in Hf' by done. discriminate Hf'.
Qed.
End ResolverRunsProperties.

Lemma cache_transparent_on_fixed_directory_witness :
  fst (Resolver._load_widget_html "/srv/assets" Resolver.two_files "widget"
         (Resolver.run_calls "/srv/assets"
            (ResolverRuns.calls_on Resolver.two_files ["gadget"; "widget"])
            Resolver.empty_cache)) =
    Resolver._load_widget_html__wrapped "/srv/assets" Resolver.two_files
      "widget".
Proof.
  refine (proj2 (cache_transparent_on_fixed_directory "/srv/assets"
                   Resolver.two_files ["gadget"; "widget"] "widget"
                   Resolver.empty_cache _)).
  intros n t Hn.
  change (Resolver.cache Resolver.empty_cache)
    with (∅ : gmap string string) in Hn.
  rewrite lookup_empty in Hn. discriminate Hn.
Defined.

Lemma resolved_text_is_a_file_witness :
  Resolver.two_files !! "widget.html" = Some "<bbb/>" \/
  (Resolver.two_files !! "widget.html" = None /\
   exists f, Resolver.versioned "widget" f /\
             Resolver.two_files !! f = Some "<bbb/>").
Proof.
  apply (resolved_text_is_a_file "/srv/assets" Resolver.two_files "widget"
           "<bbb/>" Resolver.empty_cache eq_refl eq_refl).
  vm_compute. reflexivity.
Defined.

Lemma resolution_ignores_other_files_witness :
  Resolver._load_widget_html__wrapped "/srv/assets" Resolver.two_files
    "widget" =
  Resolver._load_widget_html__wrapped "/srv/assets"
    (<["gadget.html" := "<gadget/>"]> Resolver.two_files) "widget".
Proof.
  apply (resolution_ignores_other_files "/srv/assets"); [reflexivity|..].
  - rewrite lookup_insert_ne by done. reflexivity.
  - intros f [suffix ->]. rewrite lookup_insert_ne; [done|].
    intros Heq. discriminate Heq.
Defined.

(** ** Totals and round trips of the cart *)

Section CartTotals.
Import DeliveryQuick DeliveryQuickView.

Lemma units_app (c d : list CartItem) : units (c ++ d) = units c + units d.
Proof.
  induction c as [|x c IH]; [done|].
  change (units ((x :: c) ++ d))
    with (Double.trunc (quantity x) + units (c ++ d)).
  change (units (x :: c)) with (Double.trunc (quantity x) + units c).
  rewrite IH. lia.
Qed.

Lemma bump_absent (p : string) (f : spec_float -> spec_float)
    (c : list CartItem) :
  p ∉ map product_id c -> map (bump p f) c = c.
Proof.
  induction c as [|x c IH]; simpl; [done|].
  rewrite not_elem_of_cons. intros [Hx Hc]. unfold bump at 1.
  assert (E : is_product p x = false)
    by (apply is_product_false; congruence).
  by rewrite E, IH.
Qed.

Lemma bump_keeps_id (p : string) (f : spec_float -> spec_float)
    (item : CartItem) :
  product_id (bump p f item) = product_id item.
Proof. unfold bump. by destruct (is_product p item). Qed.

Lemma filter_out_absent (p : string) (c : list CartItem) :
  p ∉ map product_id c ->
  List.filter (fun item => negb (is_product p item)) c = c.
Proof.
  induction c as [|x c IH]; simpl; [done|].
  rewrite not_elem_of_cons. intros [Hx Hc].
  assert (E : is_product p x = false)
    by (apply is_product_false; congruence).
  by rewrite E, IH.
Qed.

(** The whole part of what the widget shows for a product is that of
    its entry. *)
Lemma trunc_or_zero (q : spec_float) :
  Double.trunc (Double.or_else q (Double.of_Z 0)) = Double.trunc q.
Proof. by destruct q. Qed.

Lemma strict_eq_or_zero (q : spec_float) :
  Double.strict_eq (Double.or_else q (Double.of_Z 0)) (Double.of_Z 1) =
  Double.strict_eq q (Double.of_Z 1).
Proof. by destruct q as [[]|[]| |]. Qed.

Lemma units_bump (p : string) (f : spec_float -> spec_float) (d : Z)
    (c : list CartItem) :
  NoDup (map product_id c) -> p ∈ map product_id c ->
  (forall item, item ∈ c -> product_id item = p ->
     Double.trunc (f (quantity item)) = Double.trunc (quantity item) + d) ->
  units (map (bump p f) c) = units c + d.
Proof.
  induction c as [|x c IH]; intros Hn Hin Hf.
  - by apply elem_of_nil in Hin.
  - simpl map in *. apply NoDup_cons in Hn as [Hx Hn].
    change (units (bump p f x :: map (bump p f) c))
      with (Double.trunc (quantity (bump p f x)) + units (map (bump p f) c)).
    change (units (x :: c)) with (Double.trunc (quantity x) + units c).
    unfold bump at 1. destruct (is_product p x) eqn:E.
    + apply is_product_true in E. rewrite <- E, bump_absent by done.
      simpl. rewrite (Hf x) by (done || left). lia.
    + apply is_product_false in E.
      apply elem_of_cons in Hin as [->|Hin]; [done|].
      rewrite IH; [lia|done..|]. intros item Hi. apply Hf. by right.
Qed.

Lemma units_filter_out (p : string) (c : list CartItem) :
  NoDup (map product_id c) ->
  units (List.filter (fun item => negb (is_product p item)) c) =
  units c - Double.trunc (getCartQuantity c p).
Proof.
  unfold getCartQuantity.
  induction c as [|x c IH]; simpl; intros Hn; [done|].
  apply NoDup_cons in Hn as [Hx Hn].
  change (units (x :: c)) with (Double.trunc (quantity x) + units c).
  destruct (is_product p x) eqn:E; simpl.
  - apply is_product_true in E. rewrite <- E, filter_out_absent by done.
    rewrite trunc_or_zero. lia.
  - change (units (x :: ?l)) with (Double.trunc (quantity x) + units l).
    rewrite IH by done. lia.
Qed.

Lemma units_bounds (c : list CartItem) :
  Forall (fun item => Double.whole 1 Double.MAX_EXACT (quantity item)) c ->
  Z.of_nat (length c) <= units c.
Proof.
  induction 1 as [|x c [Hx _] _ IH]; [done|].
  change (units (x :: c)) with (Double.trunc (quantity x) + units c).
  simpl length. lia.
Qed.

Lemma units_entry (c : list CartItem) (item : CartItem) :
  Forall (fun item => Double.whole 1 Double.MAX_EXACT (quantity item)) c ->
  item ∈ c -> Double.trunc (quantity item) <= units c.
Proof.
  induction 1 as [|x c [Hx _] Hc IH]; intros Hin.
  - by apply elem_of_nil in Hin.
  - change (units (x :: c)) with (Double.trunc (quantity x) + units c).
    pose proof (units_bounds c Hc).
    apply elem_of_cons in Hin as [->|Hin]; [lia|].
    specialize (IH Hin). lia.
Qed.

(** The sum of whole-number quantities is exact as long as it stays
    below 2^53. *)
Lemma fold_total_whole (c : list CartItem) (a : Z) :
  Forall (fun item => Double.whole 1 Double.MAX_EXACT (quantity item)) c ->
  0 <= a -> a + units c < Double.MAX_EXACT ->
  fold_left (fun sum item => Double.add sum (quantity item)) c
            (Double.of_Z a) = Double.of_Z (a + units c).
Proof.
  intros Hc. revert a. induction Hc as [|x c [Hx Hq] Hc IH]; intros a Ha Hs.
  - simpl. by rewrite Z.add_0_r.
  - change (units (x :: c)) with (Double.trunc (quantity x) + units c) in *.
    pose proof (units_bounds c Hc) as Hb.
    cbn [fold_left]. rewrite Hq at 1.
    rewrite add_whole by lia. rewrite IH by lia. f_equal. lia.
Qed.

Lemma total_whole (c : list CartItem) :
  cart_whole c -> units c < Double.MAX_EXACT ->
  cartTotalItems c = Double.of_Z (units c).
Proof.
  intros [Hc _] Hs. unfold cartTotalItems.
  by rewrite fold_total_whole by (done || lia).
Qed.

Lemma add_cart (p : string) (prev : option QuickWidgetState) :
  currentCart (handleAddToCart p prev) =
  if bool_decide (p ∈ map product_id (currentCart prev))
  then map (bump p plus_one) (currentCart prev)
  else currentCart prev ++ [mkItem p (Double.of_Z 1)].
Proof.
  destruct (find (is_product p) (currentCart prev)) as [x|] eqn:Hf.
  - rewrite (add_existing p prev x Hf), bool_decide_eq_true_2; [done|].
    destruct (decide (p ∈ map product_id (currentCart prev))); [done|].
    apply find_product_None in n. congruence.
  - rewrite (add_new p prev Hf), bool_decide_eq_false_2; [done|].
    by apply find_product_None.
Qed.

Lemma remove_cart (p : string) (prev : option QuickWidgetState) :
  currentCart (handleRemoveFromCart p prev) =
  if Double.strict_eq (getCartQuantity (currentCart prev) p) (Double.of_Z 1)
  then List.filter (fun item => negb (is_product p item)) (currentCart prev)
  else if bool_decide (p ∈ map product_id (currentCart prev))
       then map (bump p minus_one) (currentCart prev)
       else currentCart prev.
Proof.
  unfold getCartQuantity.
  destruct (find (is_product p) (currentCart prev)) as [x|] eqn:Hf.
  - assert (Hin : p ∈ map product_id (currentCart prev)).
    { destruct (decide (p ∈ map product_id (currentCart prev))); [done|].
      apply find_product_None in n. congruence. }
    rewrite strict_eq_or_zero.
    destruct (Double.strict_eq (quantity x) (Double.of_Z 1)) eqn:Hq.
    + by rewrite (remove_last p prev x Hf Hq).
    + rewrite (remove_one p prev x Hf Hq).
      by rewrite bool_decide_eq_true_2.
  - rewrite (remove_absent p prev Hf).
    change (Double.strict_eq (Double.of_Z 0) (Double.of_Z 1)) with false.
    rewrite bool_decide_eq_false_2; [done|]. by apply find_product_None.
Qed.

(** X14. The number of items in the cart: for a cart of whole-number
    quantities, below 2^53 in all, it is their sum, as a JS number.
    Adding a product raises it by one; removing a product that is in
    the cart lowers it by one and removing one that is not leaves it;
    removing all of a product lowers it by that product's quantity. It
    is at least the number of entries, so it is zero exactly for the
    empty cart. *)
Theorem cart_total_follows_operations (prev : option QuickWidgetState) :
  cart_whole (currentCart prev) ->
  units (currentCart prev) + 1 < Double.MAX_EXACT ->
  let c := currentCart prev in
  cartTotalItems c = Double.of_Z (units c) /\
  (forall p, cartTotalItems (currentCart (handleAddToCart p prev)) =
               Double.of_Z (units c + 1)) /\
  (forall p, p ∈ map product_id c ->
     cartTotalItems (currentCart (handleRemoveFromCart p prev)) =
       Double.of_Z (units c - 1)) /\
  (forall p, p ∉ map product_id c ->
     cartTotalItems (currentCart (handleRemoveFromCart p prev)) =
       cartTotalItems c) /\
  (forall p, cartTotalItems (currentCart (handleRemoveAllFromCart p prev)) =
               Double.of_Z
                 (units c - Double.trunc (getCartQuantity c p))) /\
  Z.of_nat (length c) <= units c /\
  (cartTotalItems c = Double.of_Z 0 <-> c = []).
Proof.
  intros Hok Hs c. subst c. pose proof Hok as [Hq Hn].
  pose proof (units_bounds _ Hq) as Hb.
  assert (Htotal : cartTotalItems (currentCart prev) =
                   Double.of_Z (units (currentCart prev)))
    by (apply total_whole; [done|lia]).
  split; [done|].
  split; [|split; [|split; [|split; [|split]]]].
  - intros p.
    assert (Hu : units (currentCart (handleAddToCart p prev)) =
                 units (currentCart prev) + 1).
    { rewrite add_cart. case_bool_decide as Hin.
      - apply units_bump; [done..|]. intros item Hi _.
        pose proof (units_entry _ item Hq Hi) as Hle.
        rewrite Forall_forall in Hq.
        destruct (whole_inv _ (Hq item Hi)) as (n & Hr & Hx).
        rewrite Hx, trunc_of_Z in Hle by lia.
        unfold plus_one. rewrite Hx, incr_whole by lia.
        rewrite !trunc_of_Z by lia. lia.
      - rewrite units_app. change (units [mkItem p (Double.of_Z 1)]) with 1.
        done. }
    rewrite total_whole; [by rewrite Hu | by apply add_preserves | lia].
  - intros p Hin.
    destruct (quantity_of_whole_cart (currentCart prev) p Hok)
      as [(existing & n & Hf & _ & Hr & Hx & Hg)|(_ & Hno & _)]; [|done].
    assert (Hu : units (currentCart (handleRemoveFromCart p prev)) =
                 units (currentCart prev) - 1).
    { rewrite remove_cart, Hg, strict_eq_one by lia.
      destruct (Z.eqb_spec n 1) as [->|Hne].
      - rewrite units_filter_out, Hg by done. by rewrite trunc_of_Z by lia.
      - rewrite bool_decide_eq_true_2 by done.
        rewrite (units_bump p minus_one (-1)); [lia|done..|].
        intros item Hi Hp.
        rewrite (cart_entry_unique p _ existing item Hn Hf Hi Hp).
        unfold minus_one. rewrite Hx, decr_whole by lia.
        rewrite !trunc_of_Z by lia. lia. }
    rewrite total_whole; [by rewrite Hu | by apply remove_preserves | lia].
  - intros p Hin. apply find_product_None in Hin.
    by rewrite (remove_absent p prev Hin).
  - intros p. unfold handleRemoveAllFromCart.
    rewrite currentCart_with_cart.
    assert (Hu := units_filter_out p (currentCart prev) Hn).
    assert (Hnonneg :
              0 <= Double.trunc (getCartQuantity (currentCart prev) p)).
    { destruct (quantity_of_whole_cart (currentCart prev) p Hok)
        as [(existing & n & _ & _ & Hr & _ & Hg)|(_ & _ & Hg)];
        rewrite Hg, trunc_of_Z by (unfold Double.MAX_EXACT in *; lia); lia. }
    rewrite total_whole; [by rewrite Hu | by apply cart_with_filter | lia].
  - done.
  - rewrite Htotal. split; [|by intros ->].
    intros Hz. apply of_Z_inj in Hz; try (unfold Double.MAX_EXACT in *; lia).
    destruct (currentCart prev); [done|]. cbn [length] in Hb. lia.
Qed.

Lemma map_bump_bump (p : string) (f g : spec_float -> spec_float)
    (c : list CartItem) :
  (forall item, item ∈ c -> product_id item = p ->
     g (f (quantity item)) = quantity item) ->
  map (bump p g) (map (bump p f) c) = c.
Proof.
  induction c as [|[i q] c IH]; intros Hfg; simpl; [done|].
  rewrite IH by (intros item Hi; apply Hfg; by right). f_equal.
  unfold bump. destruct (is_product p (mkItem i q)) eqn:E; simpl.
  - unfold is_product in *. simpl in *. rewrite E. simpl. f_equal.
    apply (Hfg (mkItem i q)); [left|]. by apply String.eqb_eq.
  - by rewrite E.
Qed.

(** X15. Adding a product and then removing it gives back the cart as
    it was, entry by entry, for a cart of whole-number quantities in
    which the product's quantity is not 2^53. *)
Theorem add_then_remove_restores_cart
    (p : string) (prev : option QuickWidgetState) :
  cart_whole (currentCart prev) ->
  getCartQuantity (currentCart prev) p <> Double.of_Z Double.MAX_EXACT ->
  currentCart (handleRemoveFromCart p (handleAddToCart p prev)) =
    currentCart prev.
Proof.
  intros Hok Hfull. pose proof Hok as [_ Hn].
  rewrite remove_cart, add_cart.
  destruct (quantity_of_whole_cart (currentCart prev) p Hok)
    as [(existing & n & Hf & Hin & Hr & Hx & Hg)|(Hf & Hin & Hg)].
  - rewrite (bool_decide_eq_true_2 _ Hin).
    assert (Hlt : n < Double.MAX_EXACT).
    { destruct (decide (n = Double.MAX_EXACT)) as [->|]; [|lia].
      by rewrite Hg in Hfull. }
    assert (Hq : getCartQuantity (map (bump p plus_one) (currentCart prev)) p
                 = Double.of_Z (n + 1)).
    { unfold getCartQuantity.
      rewrite find_product_map by (intros item; apply bump_keeps_id).
      rewrite Hf. simpl. unfold bump.
      pose proof (find_product_Some _ _ _ Hf) as [Hid _].
      apply is_product_true in Hid. rewrite Hid. simpl.
      unfold plus_one. rewrite Hx, incr_whole, Z.min_l by lia.
      apply whole_truthy, whole_of_Z; lia. }
    rewrite Hq, strict_eq_one by lia.
    replace (n + 1 =? 1) with false by (symmetry; apply Z.eqb_neq; lia).
    rewrite bool_decide_eq_true_2.
    + apply map_bump_bump. intros item Hi Hp.
      rewrite (cart_entry_unique p _ existing item Hn Hf Hi Hp).
      unfold plus_one, minus_one.
      rewrite Hx, incr_whole, Z.min_l, decr_whole by lia.
      f_equal. lia.
    + rewrite ids_map; [done|]. intros item. apply bump_keeps_id.
  - rewrite (bool_decide_eq_false_2 _ Hin).
    assert (Hq : getCartQuantity
                   (currentCart prev ++ [mkItem p (Double.of_Z 1)]) p =
                 Double.of_Z 1).
    { unfold getCartQuantity. rewrite find_product_app, Hf.
      unfold is_product. simpl. by rewrite String.eqb_refl. }
    rewrite Hq.
    change (Double.strict_eq (Double.of_Z 1) (Double.of_Z 1)) with true.
    cbv iota.
    rewrite List.filter_app, filter_out_absent by done. simpl.
    unfold is_product. simpl. rewrite String.eqb_refl. simpl.
    apply app_nil_r.
Qed.

Lemma filter_out_bump (p : string) (f : spec_float -> spec_float)
    (c : list CartItem) :
  List.filter (fun item => negb (is_product p item)) (map (bump p f) c) =
  List.filter (fun item => negb (is_product p item)) c.
Proof.
  induction c as [|x c IH]; simpl; [done|].
  assert (Hb : is_product p (bump p f x) = is_product p x).
  { unfold bump. destruct (is_product p x) eqn:E; [|done].
    unfold is_product in *. done. }
  rewrite Hb, IH. destruct (is_product p x) eqn:E; simpl; [done|].
  f_equal. unfold bump. by rewrite E.
Qed.

Lemma removeTimes_cart (n : nat) (p : string)
    (prev : option QuickWidgetState) :
  cart_whole (currentCart prev) ->
  Z.of_nat n <= Double.MAX_EXACT ->
  getCartQuantity (currentCart prev) p = Double.of_Z (Z.of_nat n) ->
  currentCart (removeTimes n p prev) =
    List.filter (fun item => negb (is_product p item)) (currentCart prev).
Proof.
  revert prev. induction n as [|n IH]; intros prev Hok Hle Hq.
  - simpl. symmetry. apply filter_out_absent.
    destruct (quantity_of_whole_cart (currentCart prev) p Hok)
      as [(existing & m & Hf & _ & Hr & Hx & Hg)|(_ & Hno & _)]; [|done].
    rewrite Hg in Hq. apply of_Z_inj in Hq; lia.
  - unfold removeTimes. rewrite Nat.iter_succ_r.
    fold (removeTimes n p (handleRemoveFromCart p prev)).
    destruct (quantity_of_whole_cart (currentCart prev) p Hok)
      as [(existing & m & Hf & Hin & Hr & Hx & Hg)|(_ & _ & Hg)].
    2: { rewrite Hg in Hq. apply of_Z_inj in Hq; lia. }
    assert (Hm : m = Z.of_nat (S n)).
    { rewrite Hg in Hq. apply of_Z_inj in Hq; lia. }
    destruct n as [|n].
    + simpl. rewrite remove_cart, Hq. done.
    + assert (Hc : currentCart (handleRemoveFromCart p prev) =
                   map (bump p minus_one) (currentCart prev)).
      { rewrite remove_cart, Hq, strict_eq_one by lia.
        replace (Z.of_nat (S (S n)) =? 1) with false
          by (symmetry; apply Z.eqb_neq; lia).
        by rewrite bool_decide_eq_true_2. }
      rewrite IH.
      * rewrite Hc. apply filter_out_bump.
      * by apply remove_preserves.
      * lia.
      * rewrite Hc. unfold getCartQuantity.
        rewrite find_product_map by (intros item; apply bump_keeps_id).
        rewrite Hf. simpl. unfold bump.
        pose proof (find_product_Some _ _ _ Hf) as [Hid _].
        apply is_product_true in Hid. rewrite Hid. simpl.
        unfold minus_one. rewrite Hx, decr_whole by lia.
        replace (m - 1) with (Z.of_nat (S n)) by lia.
        apply whole_truthy, whole_of_Z; lia.
Qed.

(** X16. For a cart of whole-number quantities, removing all of a
    product at once gives the cart that pressing remove gives after as
    many presses as the product's quantity: the entry is gone and the
    other entries are as they were, in their order. Afterwards the
    product's quantity is zero and that of every other product is
    unchanged. *)
Theorem remove_all_is_repeated_remove
    (p : string) (prev : option QuickWidgetState) :
  cart_whole (currentCart prev) ->
  let n := Z.to_nat (Double.trunc (getCartQuantity (currentCart prev) p)) in
  currentCart (handleRemoveAllFromCart p prev) =
    currentCart (removeTimes n p prev) /\
  getCartQuantity (currentCart (handleRemoveAllFromCart p prev)) p =
    Double.of_Z 0 /\
  (forall q, q <> p ->
     getCartQuantity (currentCart (handleRemoveAllFromCart p prev)) q =
       getCartQuantity (currentCart prev) q).
Proof.
  intros Hok n. subst n.
  unfold handleRemoveAllFromCart. rewrite currentCart_with_cart.
  split; [|split].
  - symmetry.
    destruct (quantity_of_whole_cart (currentCart prev) p Hok)
      as [(existing & m & _ & _ & Hr & _ & Hg)|(_ & _ & Hg)];
      rewrite Hg.
    + rewrite trunc_of_Z by lia.
      apply removeTimes_cart; [done|lia|]. rewrite Hg. f_equal. lia.
    + by apply removeTimes_cart; [|unfold Double.MAX_EXACT|].
  - unfold getCartQuantity.
    pose proof (ids_filter_out p (currentCart prev)) as Hgone.
    apply find_product_None in Hgone. by rewrite Hgone.
  - intros q Hne. unfold getCartQuantity.
    by rewrite find_product_filter_other.
Qed.
End CartTotals.

Lemma milk_and_eggs_whole :
  DeliveryQuick.cart_whole
    (DeliveryQuick.currentCart DeliveryQuickView.milk_and_eggs).
Proof.
  split.
  - constructor;
      [apply (whole_of_Z 1 Double.MAX_EXACT 2); unfold Double.MAX_EXACT; lia|].
    constructor;
      [apply (whole_of_Z 1 Double.MAX_EXACT 1); unfold Double.MAX_EXACT; lia|].
    constructor.
  - apply (bool_decide_unpack _). vm_compute. exact I.
Qed.

Lemma cart_total_follows_operations_witness :
  DeliveryQuickView.cartTotalItems
    (DeliveryQuick.currentCart
       (DeliveryQuick.handleAddToCart "bread" DeliveryQuickView.milk_and_eggs)) =
  Double.of_Z 4.
Proof.
  assert (Hs : DeliveryQuickView.units
                 (DeliveryQuick.currentCart DeliveryQuickView.milk_and_eggs)
               + 1 < Double.MAX_EXACT) by (vm_compute; reflexivity).
  exact (proj1 (proj2 (cart_total_follows_operations
                         DeliveryQuickView.milk_and_eggs
                         milk_and_eggs_whole Hs)) "bread").
Defined.

Lemma add_then_remove_restores_cart_witness :
  DeliveryQuick.currentCart
    (DeliveryQuick.handleRemoveFromCart "milk"
       (DeliveryQuick.handleAddToCart "milk" DeliveryQuickView.milk_and_eggs)) =
  DeliveryQuick.currentCart DeliveryQuickView.milk_and_eggs.
Proof.
  apply (add_then_remove_restores_cart "milk" DeliveryQuickView.milk_and_eggs
           milk_and_eggs_whole).
  vm_compute. intros Heq. discriminate Heq.
Defined.

Lemma remove_all_is_repeated_remove_witness :
  DeliveryQuick.currentCart
    (DeliveryQuick.handleRemoveAllFromCart "milk" DeliveryQuickView.milk_and_eggs) =
  DeliveryQuick.currentCart
    (DeliveryQuickView.removeTimes 2 "milk" DeliveryQuickView.milk_and_eggs).
Proof.
  exact (proj1 (remove_all_is_repeated_remove "milk" DeliveryQuickView.milk_and_eggs
                  milk_and_eggs_whole)).
Defined.

(** ** Favourites, categories and the cart view *)

Section FavouritesAndCategories.
Import DeliveryQuick DeliveryQuickView.

Lemma existsb_eqb_elem (p : string) (l : list string) :
  existsb (String.eqb p) l = true <-> p ∈ l.
Proof.
  rewrite existsb_exists. split.
  - intros (x & Hx & Hp). apply String.eqb_eq in Hp as ->.
    by apply list_elem_of_In.
  - intros Hin. exists p. split; [by apply list_elem_of_In|].
    apply String.eqb_refl.
Qed.

Lemma elem_of_filter_out (p q : string) (l : list string) :
  q ∈ List.filter (fun id => negb (String.eqb id p)) l <-> q ∈ l /\ q <> p.
Proof.
  rewrite list_elem_of_In, filter_In, negb_true_iff, String.eqb_neq.
  by rewrite <- list_elem_of_In.
Qed.

Lemma NoDup_filter_bool {A} (f : A -> bool) (l : list A) :
  NoDup l -> NoDup (List.filter f l).
Proof.
  induction 1 as [|x l Hx _ IH]; simpl; [constructor|].
  destruct (f x); [|done]. constructor; [|done].
  intros Hin. apply Hx. apply list_elem_of_In, filter_In in Hin as [Hin _].
  by apply list_elem_of_In.
Qed.

(** X17. Toggling a favourite. The list written has the product exactly
    when the rendered list did not, holds every other product exactly
    when the rendered list did, and has no repeats when that one had
    none. The list is computed from the rendered favourites, not from
    the document being updated: of two toggles made on the same
    rendering, the document keeps the second only. The cart is as it
    was. *)
Theorem toggle_favorite_flips_membership
    (rendered : list string) (p : string) (prev : option QuickWidgetState) :
  let new := newFavorites rendered p in
  handleToggleFavorite rendered p prev ≫= favorites = Some new /\
  (p ∈ new <-> p ∉ rendered) /\
  (forall q, q <> p -> q ∈ new <-> q ∈ rendered) /\
  (NoDup rendered -> NoDup new) /\
  (forall p2,
     handleToggleFavorite rendered p2 (handleToggleFavorite rendered p prev)
       ≫= favorites = Some (newFavorites rendered p2)) /\
  currentCart (handleToggleFavorite rendered p prev) = currentCart prev.
Proof.
  intros new. subst new. split; [reflexivity|].
  unfold newFavorites.
  destruct (existsb (String.eqb p) rendered) eqn:E.
  - apply existsb_eqb_elem in E.
    split; [|split; [|split; [|split]]].
    + rewrite elem_of_filter_out. tauto.
    + intros q Hq. rewrite elem_of_filter_out. tauto.
    + apply NoDup_filter_bool.
    + reflexivity.
    + unfold handleToggleFavorite, currentCart. simpl.
      apply currentCart_spread.
  - assert (Hn : p ∉ rendered).
    { intros Hin. apply existsb_eqb_elem in Hin. congruence. }
    split; [|split; [|split; [|split]]].
    + rewrite elem_of_app, list_elem_of_singleton. tauto.
    + intros q Hq. rewrite elem_of_app, list_elem_of_singleton. tauto.
    + intros Hnd. apply NoDup_app. split; [done|]. split.
      * intros x Hx Hx'. apply list_elem_of_singleton in Hx' as ->. done.
      * apply NoDup_singleton.
    + reflexivity.
    + unfold handleToggleFavorite, currentCart. simpl.
      apply currentCart_spread.
Qed.

Context {ProductData : Type}.
Variable id : ProductData -> string.
Variable category_id : ProductData -> string.

(** X18. Filtering by category. After a click on a category that is not
    the selected one the products shown are those of that category, in
    their order, unless its id is the empty string, which filters
    nothing; after a click on the selected category all products are
    shown; and whatever the selection, a product shown is one of the
    products. *)
Theorem category_click_filters_products
    (products : list ProductData) (c : string)
    (prev : option QuickWidgetState) :
  (c <> "" -> prev ≫= selectedCategory <> Some c ->
   filteredProducts category_id
     (handleCategoryClick c prev ≫= selectedCategory) products =
     List.filter (fun p => String.eqb (category_id p) c) products) /\
  (prev ≫= selectedCategory = Some c ->
   filteredProducts category_id
     (handleCategoryClick c prev ≫= selectedCategory) products =
     products) /\
  filteredProducts category_id
    (handleCategoryClick "" prev ≫= selectedCategory) products = products /\
  (forall selected p,
     p ∈ filteredProducts category_id selected products -> p ∈ products).
Proof.
  split; [|split; [|split]].
  - intros Hc Hsel. unfold handleCategoryClick. simpl.
    rewrite bool_decide_eq_false_2 by done. simpl.
    by destruct c.
  - intros Hsel. unfold handleCategoryClick. simpl.
    by rewrite bool_decide_eq_true_2.
  - unfold handleCategoryClick. simpl. by case_bool_decide.
  - intros [[|a s]|] p; simpl; try done.
    intros Hp. apply list_elem_of_In, filter_In in Hp as [Hp _].
    by apply list_elem_of_In.
Qed.

(** X19. The rows of the cart view. There is at most one row per cart
    entry; a row holds a product of the tool output and the quantity of
    a cart entry with that product's id; and when every product of the
    cart is in the tool output, the rows carry the quantities of the
    cart, entry by entry. *)
Theorem cart_view_rows (products : list ProductData) (c : list CartItem) :
  (length (cartProducts id products c) <= length c)%nat /\
  (forall product q,
     (product, q) ∈ cartProducts id products c ->
     product ∈ products /\
     exists item, item ∈ c /\ product_id item = id product /\
                  quantity item = q) /\
  ((forall item, item ∈ c -> product_id item ∈ map id products) ->
   map snd (cartProducts id products c) = map quantity c).
Proof.
  unfold cartProducts. split; [|split].
  - induction c as [|x c IH]; simpl; [done|].
    destruct (find _ products); simpl; lia.
  - intros product q Hin.
    apply list_elem_of_In, in_flat_map in Hin as (item & Hitem & Hf).
    destruct (find _ products) as [pr|] eqn:Hfind; [|done].
    destruct Hf as [Hf|[]]. injection Hf as <- <-.
    apply find_some in Hfind as [Hp Heq]. apply String.eqb_eq in Heq.
    split; [by apply list_elem_of_In|]. exists item.
    split; [by apply list_elem_of_In | done].
  - induction c as [|x c IH]; intros Hknown; simpl; [done|].
    destruct (find (fun p => String.eqb (id p) (product_id x)) products)
      as [pr|] eqn:Hfind.
    + simpl. f_equal. apply IH. intros item Hi. apply Hknown. by right.
    + exfalso. assert (Hx : product_id x ∈ map id products)
        by (apply Hknown; left).
      apply list_elem_of_In, in_map_iff in Hx as (pr & Hpr & Hin).
      apply (find_none _ _ Hfind) in Hin.
      apply String.eqb_neq in Hin. done.
Qed.
End FavouritesAndCategories.

(** ** The kitchen-sink widget *)

Section KitchenSinkProperties.
Import KitchenSink WidgetStateStore.

Lemma take_cons_take {A} (n : nat) (x : A) (l : list A) :
  take n (x :: take n l) = take n (x :: l).
Proof.
  destruct n as [|n]; [done|]. simpl. f_equal.
  rewrite take_take. f_equal. lia.
Qed.

(** X20. The event log. After any call it has at most twelve lines and
    the new line is the first; after a run of calls from the empty log
    it holds the last twelve lines logged (all of them when there were
    fewer), newest first. *)
Theorem event_log_keeps_last_twelve
    (entries : list (string * string)) (stamp text : string)
    (prev : list string) :
  (length (logEvent stamp text prev) <= 12)%nat /\
  head (logEvent stamp text prev) = Some (stamp +:+ " " +:+ text) /\
  logAll entries =
    take 12 (rev (map (fun e => fst e +:+ " " +:+ snd e) entries)) /\
  length (logAll entries) = Nat.min 12 (length entries).
Proof.
  assert (Hall : logAll entries =
            take 12 (rev (map (fun e => fst e +:+ " " +:+ snd e) entries))).
  { unfold logAll. induction entries as [|e entries IH] using rev_ind;
      [done|].
    rewrite foldl_app. simpl. rewrite IH. unfold logEvent.
    rewrite take_cons_take, map_app, rev_app_distr. done. }
  split; [unfold logEvent; rewrite length_take; lia|].
  split; [done|]. split; [done|].
  rewrite Hall, length_take, length_rev, length_map. lia.
Qed.

(** X21. Saving the widget state twice. The second save decides the
    three keys it writes and the first leaves no trace: the document is
    the one a single save of the second values gives. The keys of a
    saved document are those of the document before and the three
    written. *)
Theorem save_widget_state_last_wins
    (prev : jsobject) (note1 note2 : string) (highlight1 highlight2 : bool)
    (now1 now2 : string) :
  handleSaveWidgetState note2 highlight2 now2
    (handleSaveWidgetState note1 highlight1 now1 prev) =
    handleSaveWidgetState note2 highlight2 now2 prev /\
  dom (handleSaveWidgetState note1 highlight1 now1 prev) =
    dom prev ∪ {["note"; "highlight"; "savedAt"]}.
Proof.
  unfold handleSaveWidgetState, spread_with. split.
  - apply map_eq. intros k. rewrite !lookup_insert.
    repeat case_decide; done.
  - rewrite !dom_insert_L. apply set_eq. intros k.
    rewrite !elem_of_union, !elem_of_singleton. tauto.
Qed.
End KitchenSinkProperties.

Lemma category_click_filters_products_witness :
  DeliveryQuickView.filteredProducts snd
    (DeliveryQuick.handleCategoryClick "dairy"
       DeliveryQuickView.milk_and_eggs
     ≫= DeliveryQuick.selectedCategory)
    [("milk", "dairy"); ("bread", "bakery")] =
  List.filter (fun p => String.eqb (snd p) "dairy")
              [("milk", "dairy"); ("bread", "bakery")].
Proof.
  apply (proj1 (category_click_filters_products snd
                  [("milk", "dairy"); ("bread", "bakery")] "dairy"
                  DeliveryQuickView.milk_and_eggs)); done.
Defined.

(** ** When arguments are accepted *)

Lemma extra_errors_nil_iff (declared : list string) (d : pydict) :
  extra_errors declared d = [] <->
  forall k, k ∈ dict_keys d -> k ∈ declared.
Proof.
  split; [|apply extra_errors_nil].
  unfold extra_errors, dict_keys.
  induction d as [|[k x] d IHd]; simpl; intros He k' Hk'.
  - by apply elem_of_nil in Hk'.
  - case_bool_decide as Hk; [|discriminate He]. simpl in He.
    apply elem_of_cons in Hk' as [->|Hk']; [done | by apply IHd].
Qed.

Lemma validate_field_errors {A} (field : string)
    (validator : pyvalue -> Validated A) (default : option A)
    (input : pydict) (errs : list ErrorDetails) :
  validate_field field validator default input = inl errs -> errs <> [].
Proof.
  unfold validate_field.
  destruct (dict_get field input) as [v|].
  - destruct (validator v); [discriminate|]. by intros [= <-].
  - destruct default; [discriminate|]. by intros [= <-].
Qed.

Section Acceptance.
Context `{Runtime}.

(** X22. The arguments are accepted, with a given payload, exactly when
    [query] is there and valid, [limit] is either absent (the payload
    then has 10) or valid, and every key is a declared one; otherwise
    validation fails with a list of errors that is not empty. *)
Theorem arguments_accepted_iff (input : pydict) (payload : MyToolInput) :
  (model_validate input = inr payload <->
   (exists v, dict_get "query" input = Some v /\
              validate_str v = Valid (query payload)) /\
   ((dict_get "limit" input = None /\ limit payload = 10) \/
    (exists v, dict_get "limit" input = Some v /\
               validate_int v = Valid (limit payload))) /\
   (forall k, k ∈ dict_keys input -> k ∈ properties TOOL_INPUT_SCHEMA)) /\
  (forall errs, model_validate input = inl errs -> errs <> []).
Proof.
  split.
  - rewrite <- extra_errors_nil_iff. unfold model_validate, validate_field.
    destruct (dict_get "query" input) as [vq|] eqn:Hq.
    2: { split; [discriminate|]. intros [(v & Hv & _) _]. discriminate Hv. }
    destruct (validate_str vq) as [q|et em] eqn:Hvq.
    2: { split; [discriminate|]. intros [(v & [= <-] & Hv) _]. congruence. }
    destruct (dict_get "limit" input) as [vl|] eqn:Hl.
    + destruct (validate_int vl) as [l|et em] eqn:Hvl.
      * destruct (extra_errors _ input) as [|e es] eqn:He.
        -- split.
           ++ intros [= <-]. simpl. split; [by exists vq|].
              split; [right; by exists vl | done].
           ++ intros [(v & [= <-] & Hv) [[[? _]|(v' & [= <-] & Hv')] _]];
                [done|]. destruct payload as [pq pl]. simpl in *.
              congruence.
        -- split; [discriminate|]. intros (_ & _ & Hnil). discriminate Hnil.
      * split; [discriminate|].
        intros (_ & [[? _]|(v' & [= <-] & Hv')] & _); congruence.
    + destruct (extra_errors _ input) as [|e es] eqn:He.
      * split.
        -- intros [= <-]. simpl. split; [by exists vq|].
           split; [by left | done].
        -- intros [(v & [= <-] & Hv) [[[_ Hten]|(v' & ? & _)] _]];
             [|done]. destruct payload as [pq pl]. simpl in *. congruence.
      * split; [discriminate|]. intros (_ & _ & Hnil). discriminate Hnil.
  - intros errs. unfold model_validate.
    destruct (validate_field "query" validate_str None input) as [eq|q]
      eqn:Hq;
      destruct (validate_field "limit" validate_int (Some 10) input)
        as [el|l] eqn:Hl;
      destruct (extra_errors (properties TOOL_INPUT_SCHEMA) input)
        as [|x xs] eqn:He; simpl; intros [= <-]; try done;
      try (apply validate_field_errors in Hq; by destruct eq);
      try (apply validate_field_errors in Hl; by destruct el).
Qed.
End Acceptance.

Lemma arguments_accepted_iff_witness :
  @model_validate mock_runtime pizza_args = inr (mkInput "pizza" 2).
Proof.
  apply (proj1 (@arguments_accepted_iff mock_runtime pizza_args
                  (mkInput "pizza" 2))).
  split; [by exists (PyStr "pizza")|].
  split; [right; by exists (PyInt 2)|].
  intros k Hk. simpl in *.
  apply elem_of_cons in Hk as [->|Hk]; [left|].
  apply list_elem_of_singleton in Hk as ->. right. left.
Defined.
